(** * py-imageprocessing: acquisition, fetch and grayscale pipeline

    A shallow embedding of [src/imageprocessing.py] (the documented
    program) and of the top-level [imageprocessing.py], whose functions
    are the same text and whose driver differs.

    The program talks to three outside parties: the Gemini text service
    ([client.models.generate_content]), HTTP servers ([requests.get]) and
    the file system together with OpenCV ([cv2.imread], [cv2.cvtColor],
    [cv2.imwrite]).  Their answers are not fixed by the program, so they
    are an environment [Env] of oracles; everything the program does to
    them is recorded, in order, in the trace of a [World]. *)

From Stdlib Require Import ZArith Lia Ascii String List.
From stdpp Require Import base option list strings pretty gmap.

Local Open Scope string_scope.
Local Open Scope list_scope.
Local Open Scope Z_scope.

(** ** Python strings

    A Python [str] is modelled as a Rocq [string] whose characters are
    the code points below 256.  The functions below follow CPython's
    [str] methods and [posixpath]/[genericpath] (the program is run on a
    POSIX system: [os.sep] is ["/"]). *)
Module PyStr.

(** [str.isspace] on one character, for code points below 256. *)
Definition isspace (a : ascii) : bool :=
  let n := nat_of_ascii a in
  ((9 <=? n) && (n <=? 13) || (28 <=? n) && (n <=? 32)
   || (n =? 133) || (n =? 160))%nat.

Fixpoint lstrip (s : string) : string :=
  match s with
  | String a s' => if isspace a then lstrip s' else s
  | EmptyString => EmptyString
  end.

Definition rstrip (s : string) : string := String.rev (lstrip (String.rev s)).

(** [s.strip()] *)
Definition strip (s : string) : string := rstrip (lstrip s).

(** [s.split(sep)] for a one-character separator: never the empty list. *)
Fixpoint split (sep : ascii) (s : string) : list string :=
  match s with
  | EmptyString => [EmptyString]
  | String a s' =>
      if decide (a = sep) then EmptyString :: split sep s'
      else match split sep s' with
           | h :: t => String a h :: t
           | [] => [String a EmptyString]
           end
  end.

(** [s.rfind(c)]: the highest index of [c] in [s], or [-1]. *)
Fixpoint rfind_go (c : ascii) (s : string) (i found : Z) : Z :=
  match s with
  | EmptyString => found
  | String a s' => rfind_go c s' (i + 1) (if decide (a = c) then i else found)
  end.

Definition rfind (c : ascii) (s : string) : Z := rfind_go c s 0 (-1).

(** Slices [p[:k]] and [p[k:]] for [0 <= k]. *)
Fixpoint take (k : nat) (s : string) : string :=
  match k, s with
  | S k', String a s' => String a (take k' s')
  | _, _ => EmptyString
  end.

Fixpoint drop (k : nat) (s : string) : string :=
  match k, s with
  | S k', String _ s' => drop k' s'
  | _, _ => s
  end.

Fixpoint mem (c : ascii) (s : string) : bool :=
  match s with
  | EmptyString => false
  | String a s' => if decide (a = c) then true else mem c s'
  end.

(** Some character of [s] differs from [c]. *)
Fixpoint has_other (c : ascii) (s : string) : bool :=
  match s with
  | EmptyString => false
  | String a s' => if decide (a = c) then has_other c s' else true
  end.

(** The loop of [genericpath._splitext] that skips leading dots:
    [while filenameIndex < dotIndex], answer [true] as soon as
    [p[filenameIndex]] is not a dot (the function then returns the
    split), [false] when the loop runs out.  [n] is
    [dotIndex - filenameIndex]. *)
Fixpoint splitext_scan (p : string) (filenameIndex : nat) (n : nat) : bool :=
  match n with
  | O => false
  | S n' =>
      match String.get filenameIndex p with
      | Some a =>
          if decide (a = "."%char) then splitext_scan p (S filenameIndex) n'
          else true
      | None => true
      end
  end.

(** [os.path.splitext(p)] ([genericpath._splitext] with [sep = "/"],
    no [altsep], [extsep = "."]). *)
Definition splitext (p : string) : string * string :=
  let sepIndex := rfind "/" p in
  let dotIndex := rfind "." p in
  if dotIndex >? sepIndex then
    if splitext_scan p (Z.to_nat (sepIndex + 1))
         (Z.to_nat (dotIndex - (sepIndex + 1)))
    then (take (Z.to_nat dotIndex) p, drop (Z.to_nat dotIndex) p)
    else (p, EmptyString)
  else (p, EmptyString).

(** [os.path.basename(p)]: [p[p.rfind("/") + 1:]]. *)
Definition basename (p : string) : string :=
  drop (Z.to_nat (rfind "/" p + 1)) p.

(** [s.rstrip("/")] *)
Definition rstrip_sep (s : string) : string :=
  let fix go (r : string) : string :=
    match r with
    | String "/" r' => go r'
    | _ => r
    end in
  String.rev (go (String.rev s)).

(** [os.path.dirname(p)] *)
Definition dirname (p : string) : string :=
  let head := take (Z.to_nat (rfind "/" p + 1)) p in
  if has_other "/" head then rstrip_sep head else head.

(** [os.path.join(a, b)] for one further component, and the general
    [os.path.join(a, *p)] as its left fold. *)
Definition join2 (path b : string) : string :=
  match b with
  | String "/" _ => b
  | _ =>
      match String.rev path with
      | EmptyString => b
      | String "/" _ => path +:+ b
      | _ => path +:+ "/" +:+ b
      end
  end.

Definition join (a : string) (p : list string) : string := foldl join2 a p.

(** [str(n)] for a non-negative index and for an integer. *)
Definition str_nat (n : nat) : string := pretty n.
Definition str_int (z : Z) : string := pretty z.

(** [int(s)] for a decimal literal: surrounding whitespace, an optional
    sign, digits, single underscores between digits.  [None] stands for
    the [ValueError] Python raises. *)
Fixpoint digits_go (s : string) (acc : Z) (after_digit : bool) : option Z :=
  match s with
  | EmptyString => if after_digit then Some acc else None
  | String a s' =>
      match Ascii.is_nat a with
      | Some d => digits_go s' (10 * acc + Z.of_nat d) true
      | None =>
          if decide (a = "_"%char) then
            if after_digit then digits_go s' acc false else None
          else None
      end
  end.

Definition int (s : string) : option Z :=
  match strip s with
  | String "-" r => Z.opp <$> digits_go r 0 false
  | String "+" r => digits_go r 0 false
  | r => digits_go r 0 false
  end.

End PyStr.

(** ** The outside world *)

Definition bytes := list Byte.byte.

(** What one call of [client.models.generate_content] does: it answers
    (the [text] of a response is [None] when the answer has no text
    part), or raises one of the two [genai.errors.APIError] classes. *)
Inductive GenOutcome :=
| GenResponse (text : option string)
| GenServerError (message : string)
| GenClientError (message : string).

Record Response := { status_code : Z; content : bytes }.

Record Request := {
  req_url : string;
  req_headers : list (string * string);
  req_timeout : option Z
}.

Global Instance Request_eq_dec : EqDecision Request.
Proof. solve_decision. Defined.

(** What one [requests.get] does: a response, or an exception of the
    two classes [is_accessible] names (for an exception the string is
    [str(e)]). *)
Inductive HttpOutcome :=
| HttpResponse (r : Response)
| HttpRequestException (e : string)
| HttpValueError (e : string).

(** A decoded image ([cv2.typing.MatLike]). *)
Record Mat := { mat_rows : nat; mat_cols : nat; mat_channels : nat; mat_data : list Z }.

Inductive Event :=
| EvGenerate (model prompt : string) (r : GenOutcome)
| EvGet (req : Request) (r : HttpOutcome)
| EvPrint (line : string)
| EvMakedirs (path : string)
| EvWrite (path : string) (data : bytes)
| EvImwrite (path : string) (data : bytes).

(** The oracles.  A service's answer may depend on everything that
    happened before (the trace), so the same URL can answer 200 now and
    404 later.  [generate_content] is the client the module builds from
    the key file when it is loaded, [base_dir] is [BASE_DIR], the
    directory of the script.  [imencode path m] is [None] when [cv2.imwrite] raises
    [cv2.error] (no encoder for the file name's extension). *)
Record Env := {
  base_dir : string;
  generate_content : list Event -> string -> string -> GenOutcome;
  requests_get : list Event -> Request -> HttpOutcome;
  imdecode : bytes -> option Mat;
  cvtColor_BGR2GRAY : Mat -> Mat;
  imencode : string -> Mat -> option bytes
}.

(** Files and directories.  Writing is taken to succeed ([OSError] is
    not modelled). *)
Record FS := { files : gmap string bytes; dirs : gset string }.

Record World := { trace : list Event; fs : FS }.

Inductive Exn :=
| ServerError (message : string)
| ClientError (message : string)
| RequestException (e : string)
| ValueError (e : string)
| AttributeError
| IndexError
| CvError.

(** How a computation ends: a value, [sys.exit(code)], an exception
    nobody caught, or the loop budget of the model used up. *)
Inductive Result (A : Type) :=
| Ret (a : A)
| Exit (code : Z)
| Raise (e : Exn)
| OutOfFuel.
Arguments Ret {A} a.
Arguments Exit {A} code.
Arguments Raise {A} e.
Arguments OutOfFuel {A}.

Definition M (A : Type) : Type := World -> Result A * World.

Definition ret {A} (a : A) : M A := fun w => (Ret a, w).

Definition bind {A B} (m : M A) (k : A -> M B) : M B := fun w =>
  match m w with
  | (Ret a, w') => k a w'
  | (Exit c, w') => (Exit c, w')
  | (Raise e, w') => (Raise e, w')
  | (OutOfFuel, w') => (OutOfFuel, w')
  end.

Global Instance M_ret : MRet M := @ret.
Global Instance M_bind : MBind M := fun A B k m => bind m k.

Definition raise {A} (e : Exn) : M A := fun w => (Raise e, w).
Definition sys_exit {A} (code : Z) : M A := fun w => (Exit code, w).
Definition out_of_fuel {A} : M A := fun w => (OutOfFuel, w).

(** [try: m  except <classes chosen by h>: handler] *)
Definition try_except {A} (m : M A) (h : Exn -> option (M A)) : M A := fun w =>
  match m w with
  | (Raise e, w') =>
      match h e with
      | Some handler => handler w'
      | None => (Raise e, w')
      end
  | other => other
  end.

Definition emit (e : Event) (w : World) : World :=
  {| trace := trace w ++ [e]; fs := fs w |}.

Definition print (line : string) : M unit := fun w => (Ret tt, emit (EvPrint line) w).

Definition client_generate_content (env : Env) (model contents : string) : M (option string) :=
  fun w =>
    let r := generate_content env (trace w) model contents in
    let w' := emit (EvGenerate model contents r) w in
    match r with
    | GenResponse text => (Ret text, w')
    | GenServerError m => (Raise (ServerError m), w')
    | GenClientError m => (Raise (ClientError m), w')
    end.

Definition get (env : Env) (req : Request) : M Response := fun w =>
  let r := requests_get env (trace w) req in
  let w' := emit (EvGet req r) w in
  match r with
  | HttpResponse resp => (Ret resp, w')
  | HttpRequestException e => (Raise (RequestException e), w')
  | HttpValueError e => (Raise (ValueError e), w')
  end.

(** [os.makedirs(d, exist_ok=True)] *)
Definition makedirs (d : string) : M unit := fun w =>
  (Ret tt, {| trace := trace w ++ [EvMakedirs d];
              fs := {| files := files (fs w); dirs := {[ d ]} ∪ dirs (fs w) |} |}).

(** [with open(filename, "wb") as f: f.write(data)] *)
Definition write_file (filename : string) (data : bytes) : M unit := fun w =>
  (Ret tt, {| trace := trace w ++ [EvWrite filename data];
              fs := {| files := <[filename := data]> (files (fs w)); dirs := dirs (fs w) |} |}).

(** [cv2.imread(path)]: [None] for a missing file and for bytes that do
    not decode. *)
Definition imread (env : Env) (path : string) : M (option Mat) := fun w =>
  (Ret (files (fs w) !! path ≫= imdecode env), w).

(** [cv2.imwrite(path, m)] *)
Definition imwrite (env : Env) (path : string) (m : Mat) : M unit := fun w =>
  match imencode env path m with
  | Some data =>
      (Ret tt, {| trace := trace w ++ [EvImwrite path data];
                  fs := {| files := <[path := data]> (files (fs w)); dirs := dirs (fs w) |} |})
  | None => (Raise CvError, w)
  end.

(** ** The program: [src/imageprocessing.py] *)

Definition GENAI_MODEL : string := "gemini-2.5-flash-lite".

Definition IMAGES_DIR (env : Env) : string := PyStr.join (base_dir env) [".."; "images"].
Definition GSIMAGES_DIR (env : Env) : string := PyStr.join (base_dir env) [".."; "gs-images"].

Definition os_sep : string := "/".

Definition generation_prompt (numimages : Z) : string :=
  "Generate " +:+ PyStr.str_int numimages +:+
  " public domain image URL (either JPEG or PNG format) from " +:+
  "trusted public domain image repositories, except any Wikimedia-related ones." +:+
  "The URL must directly point to a valid image file ending with .jpg or .png " +:+
  "and the file size must be less than 200 KB. Provide the final image URLs in " +:+
  "plain text.".

(** [str.format] prints a [None] text as ["None"]. *)
Definition extraction_prompt (text : option string) : string :=
  "Extract all URLs from the following contents into a plain text list. " +:+
  "Each URL must be on a new line. These are the contents: " +:+
  default "None" text.

Definition useragent : list (string * string) :=
  [("User-Agent",
    "Mozilla/5.0 (Macintosh; Intel Mac OS X 10_15_7) " +:+
    "AppleWebKit/537.36 (KHTML, like Gecko) Chrome/140.0.0.0 Safari/537.36")].

(** The request [is_accessible] sends and the one [download_image] sends. *)
Definition check_request (url : string) : Request :=
  {| req_url := url; req_headers := []; req_timeout := Some 5 |}.

Definition download_request (url : string) : Request :=
  {| req_url := url; req_headers := useragent; req_timeout := None |}.

(** [is_accessible(url)] *)
Definition is_accessible (env : Env) (url : string) : M bool :=
  try_except
    (response ← get env (check_request url);
     mret (status_code response =? 200))
    (fun exn =>
       match exn with
       | RequestException e | ValueError e =>
           Some (print ("Error accessing " +:+ url +:+ ": " +:+ e);; mret false)
       | _ => None
       end).

(** The [for url in urls] loop of [generate_image_urls]; it returns the
    list [image_urls] as the loop leaves it, by exhaustion or by
    [break]. *)
Fixpoint for_urls (env : Env) (numimages : Z) (urls : list string)
    (image_urls : list string) : M (list string) :=
  match urls with
  | [] => mret image_urls
  | url :: urls' =>
      let url := PyStr.strip url in
      ok ← is_accessible env url;
      let image_urls := if ok : bool then image_urls ++ [url] else image_urls in
      if Z.of_nat (length image_urls) =? numimages then mret image_urls
      else for_urls env numimages urls' image_urls
  end.

(** The [while len(image_urls) < numimages] loop; [fuel] bounds the
    number of times its body runs. *)
Fixpoint while_urls (env : Env) (fuel : nat) (numimages : Z)
    (image_urls : list string) : M (list string) :=
  if Z.of_nat (length image_urls) <? numimages then
    match fuel with
    | O => out_of_fuel
    | S fuel' =>
        generation_text ← client_generate_content env GENAI_MODEL (generation_prompt numimages);
        extraction_text ← client_generate_content env GENAI_MODEL (extraction_prompt generation_text);
        text ← match extraction_text with
               | Some t => mret t
               | None => raise AttributeError
               end;
        let urls := PyStr.split "010" (PyStr.strip text) in
        image_urls ← for_urls env numimages urls image_urls;
        while_urls env fuel' numimages image_urls
    end
  else mret image_urls.

(** [generate_image_urls(numimages)] *)
Definition generate_image_urls (env : Env) (fuel : nat) (numimages : Z) : M (list string) :=
  try_except
    (while_urls env fuel numimages [])
    (fun exn =>
       match exn with
       | ServerError message => Some (print ("Error: " +:+ message);; sys_exit 1)
       | _ => None
       end).

(** [download_image(url, filename)] *)
Definition download_image (env : Env) (url filename : string) : M unit :=
  response ← get env (download_request url);
  if status_code response =? 200 then
    makedirs (PyStr.dirname filename);;
    write_file filename (content response)
  else
    print ("Error while downloading image from " +:+ url);;
    sys_exit 1.

(** [to_grayscale(input_image, output_image)] *)
Definition to_grayscale (env : Env) (input_image output_image : string) : M unit :=
  image ← imread env input_image;
  match image with
  | None => print ("Error: could not read " +:+ input_image)
  | Some image =>
      let grayscale := cvtColor_BGR2GRAY env image in
      makedirs (PyStr.dirname output_image);;
      imwrite env output_image grayscale
  end.

Definition imagefile (env : Env) (i : nat) (url : string) : string :=
  IMAGES_DIR env +:+ os_sep +:+ PyStr.str_nat (i + 1) +:+ (PyStr.splitext url).2.

Definition grayfile (env : Env) (i : nat) (url : string) : string :=
  GSIMAGES_DIR env +:+ os_sep +:+ PyStr.str_nat (i + 1) +:+ (PyStr.splitext url).2.

(** [for i in range(len(image_urls))]: [indices] is what is left of the
    range. *)
Fixpoint main_loop (env : Env) (image_urls : list string) (indices : list nat) : M unit :=
  match indices with
  | [] => mret tt
  | i :: indices' =>
      url ← match image_urls !! i with
            | Some u => mret u
            | None => raise IndexError
            end;
      download_image env url (imagefile env i url);;
      to_grayscale env (imagefile env i url) (grayfile env i url);;
      main_loop env image_urls indices'
  end.

(** The [if __name__ == "__main__"] block, [argv] being [sys.argv]. *)
Definition main (env : Env) (fuel : nat) (argv : list string) : M unit :=
  arg ← match argv !! 1%nat with
        | Some a => mret a
        | None => raise IndexError
        end;
  numimages ← match PyStr.int arg with
              | Some n => mret n
              | None => raise (ValueError arg)
              end;
  image_urls ← generate_image_urls env fuel numimages;
  main_loop env image_urls (seq 0 (length image_urls)).

(** ** The top-level [imageprocessing.py]

    Its [generate_image_urls], [is_accessible], [download_image] and
    [to_grayscale] are those above, word for word; its driver asks for
    one image whatever [sys.argv] holds, and its directories are
    relative. *)
Module Toplevel.

Definition imagefile (i : nat) (url : string) : string :=
  "../images" +:+ os_sep +:+ PyStr.str_nat (i + 1) +:+ (PyStr.splitext url).2.

Definition grayfile (i : nat) (url : string) : string :=
  "../gs-images" +:+ os_sep +:+ PyStr.str_nat (i + 1) +:+ (PyStr.splitext url).2.

Fixpoint main_loop (env : Env) (image_urls : list string) (indices : list nat) : M unit :=
  match indices with
  | [] => mret tt
  | i :: indices' =>
      url ← match image_urls !! i with
            | Some u => mret u
            | None => raise IndexError
            end;
      download_image env url (imagefile i url);;
      to_grayscale env (imagefile i url) (grayfile i url);;
      main_loop env image_urls indices'
  end.

Definition main (env : Env) (fuel : nat) (argv : list string) : M unit :=
  image_urls ← generate_image_urls env fuel 1;
  main_loop env image_urls (seq 0 (length image_urls)).

End Toplevel.


(** ** Reading a trace *)

(** The URL of a GET that was answered with status 200. *)
Definition accepted (e : Event) : option string :=
  match e with
  | EvGet req (HttpResponse r) =>
      if status_code r =? 200 then Some (req_url req) else None
  | _ => None
  end.

(** A call of the text service that raised [ServerError]. *)
Definition is_server_error (e : Event) : bool :=
  match e with
  | EvGenerate _ _ (GenServerError _) => true
  | _ => false
  end.

(** The events of a reachability check, and those of the acquisition
    as a whole. *)
Inductive check_event : Event -> Prop :=
| check_get url o : check_event (EvGet (check_request url) o)
| check_print line : check_event (EvPrint line).

Inductive acquisition_event : Event -> Prop :=
| acq_generate prompt r : acquisition_event (EvGenerate GENAI_MODEL prompt r)
| acq_check e : check_event e -> acquisition_event e.

(** The grayscale files and the raw files a trace wrote, in order. *)
Definition gray_written (t : list Event) : list string :=
  omap (fun e => match e with EvImwrite p _ => Some p | _ => None end) t.

Definition raw_written (t : list Event) : list string :=
  omap (fun e => match e with EvWrite p _ => Some p | _ => None end) t.

(** What the [while] loop of the acquisition can end with, given the
    events [new] it added: a list is the old list followed by the
    accepted URLs and is full; a [ServerError] is raised by the last
    event and by no earlier one; the loop itself never exits the process;
    anything else saw no server error at all. *)
Definition acquisition_post (numimages : Z) (image_urls : list string)
    (new : list Event) (r : Result (list string)) : Prop :=
  match r with
  | Ret l =>
      l = image_urls ++ omap accepted new /\
      Forall (fun e => is_server_error e = false) new /\
      ~ Z.of_nat (length l) < numimages /\
      Z.of_nat (length l) <= Z.max numimages (Z.of_nat (length image_urls))
  | Raise (ServerError m) =>
      exists pre prompt,
        new = pre ++ [EvGenerate GENAI_MODEL prompt (GenServerError m)] /\
        Forall (fun e => is_server_error e = false) pre
  | Exit _ => False
  | _ => Forall (fun e => is_server_error e = false) new
  end.

(** ** Services that let the acquisition finish *)

(** [url] answers 200 to a reachability check, whenever it is asked. *)
Definition reachable (env : Env) (url : string) : Prop :=
  forall t, exists r,
    requests_get env t (check_request url) = HttpResponse r /\ status_code r = 200.

(** The text service always answers with a text, and every text it
    gives has a line that is reachable once trimmed. *)
Definition productive (env : Env) : Prop :=
  forall t model prompt, exists text,
    generate_content env t model prompt = GenResponse (Some text) /\
    exists line, line ∈ PyStr.split "010" (PyStr.strip text) /\
                 reachable env (PyStr.strip line).

(** ** The invariant of the driver's loop *)

(** The events of one turn of the loop, for index [i] and URL [url]: at
    every moment of the turn there is no grayscale file yet, or there is
    the one of this index and its raw file has been written before. *)
Definition block_ok (env : Env) (i : nat) (url : string) (block : list Event) : Prop :=
  forall t, t `prefix_of` block ->
    gray_written t = [] \/
    (gray_written t = [grayfile env i url] /\ imagefile env i url ∈ raw_written t).

(** A trace of the loop over [indices]: no more grayscale files than
    indices, and each grayscale file is the one of an index [i] and of
    the URL at [i], whose raw file the trace has written too. *)
Definition gray_paired (env : Env) (image_urls : list string) (indices : list nat)
    (t : list Event) : Prop :=
  (length (gray_written t) <= length indices)%nat /\
  forall p, p ∈ gray_written t ->
    exists i url,
      i ∈ indices /\ image_urls !! i = Some url /\
      p = grayfile env i url /\ imagefile env i url ∈ raw_written t.

(** ** The rounds of the acquisition *)

(** The exception a call of the text service ends with, for the
    generation call and for the extraction call; the latter also fails
    on an answer without text ([None.strip()]). *)
Definition generation_error (o : GenOutcome) : option Exn :=
  match o with
  | GenResponse _ => None
  | GenServerError m => Some (ServerError m)
  | GenClientError m => Some (ClientError m)
  end.

Definition extraction_error (o : GenOutcome) : option Exn :=
  match o with
  | GenResponse (Some _) => None
  | GenResponse None => Some AttributeError
  | GenServerError m => Some (ServerError m)
  | GenClientError m => Some (ClientError m)
  end.

(** The [while] loop of [generate_image_urls] as a relation between
    the list and world it starts from and the result and world it ends
    with, one rule for each way a round can go.  [while_urls_acquires]
    below shows that every run of [while_urls] is one of these. *)
Inductive acquires (env : Env) (numimages : Z) :
    list string -> World -> Result (list string) -> World -> Prop :=
| acquires_full image_urls w :
    ~ Z.of_nat (length image_urls) < numimages ->
    acquires env numimages image_urls w (Ret image_urls) w
| acquires_out_of_fuel image_urls w :
    Z.of_nat (length image_urls) < numimages ->
    acquires env numimages image_urls w OutOfFuel w
| acquires_generation_raises image_urls w e :
    Z.of_nat (length image_urls) < numimages ->
    generation_error
      (generate_content env (trace w) GENAI_MODEL (generation_prompt numimages)) = Some e ->
    acquires env numimages image_urls w (Raise e)
      (emit (EvGenerate GENAI_MODEL (generation_prompt numimages)
               (generate_content env (trace w) GENAI_MODEL (generation_prompt numimages))) w)
| acquires_extraction_raises image_urls w t1 w1 e :
    Z.of_nat (length image_urls) < numimages ->
    generate_content env (trace w) GENAI_MODEL (generation_prompt numimages) = GenResponse t1 ->
    w1 = emit (EvGenerate GENAI_MODEL (generation_prompt numimages) (GenResponse t1)) w ->
    extraction_error
      (generate_content env (trace w1) GENAI_MODEL (extraction_prompt t1)) = Some e ->
    acquires env numimages image_urls w (Raise e)
      (emit (EvGenerate GENAI_MODEL (extraction_prompt t1)
               (generate_content env (trace w1) GENAI_MODEL (extraction_prompt t1))) w1)
| acquires_round image_urls w t1 w1 text w2 l1 w3 r w' :
    Z.of_nat (length image_urls) < numimages ->
    generate_content env (trace w) GENAI_MODEL (generation_prompt numimages) = GenResponse t1 ->
    w1 = emit (EvGenerate GENAI_MODEL (generation_prompt numimages) (GenResponse t1)) w ->
    generate_content env (trace w1) GENAI_MODEL (extraction_prompt t1) =
      GenResponse (Some text) ->
    w2 = emit (EvGenerate GENAI_MODEL (extraction_prompt t1) (GenResponse (Some text))) w1 ->
    for_urls env numimages (PyStr.split "010" (PyStr.strip text)) image_urls w2 =
      (Ret l1, w3) ->
    acquires env numimages l1 w3 r w' ->
    acquires env numimages image_urls w r w'.

(** The calls of the text service in a trace: prompt and outcome. *)
Definition gen_calls (t : list Event) : list (string * GenOutcome) :=
  omap (fun e => match e with EvGenerate _ p r => Some (p, r) | _ => None end) t.

(** Calls that come in rounds: a generation prompt for [numimages],
    then, if that was answered, an extraction prompt made of the answer;
    a further round only after an extraction answer with a text. *)
Fixpoint well_paired (numimages : Z) (calls : list (string * GenOutcome)) : Prop :=
  match calls with
  | [] => True
  | (p1, r1) :: calls1 =>
      p1 = generation_prompt numimages /\
      match calls1 with
      | [] => forall t, r1 <> GenResponse t
      | (p2, r2) :: rest =>
          exists t, r1 = GenResponse t /\ p2 = extraction_prompt t /\
            (rest = [] \/ exists text, r2 = GenResponse (Some text)) /\
            well_paired numimages rest
      end
  end.

(** ** The files a trace wrote *)

(** Path and content of every file write, in order. *)
Definition writes (t : list Event) : list (string * bytes) :=
  omap (fun e => match e with
                 | EvWrite p b | EvImwrite p b => Some (p, b)
                 | _ => None
                 end) t.

(** A name the driver's loop can write for one of [indices]. *)
Definition written_name (env : Env) (image_urls : list string) (indices : list nat)
    (p : string) : Prop :=
  exists i url,
    i ∈ indices /\ image_urls !! i = Some url /\
    (p = imagefile env i url \/ p = grayfile env i url).

(** The file contents after the writes [ws], made in order, on [m]. *)
Definition replay (ws : list (string * bytes)) (m : gmap string bytes) : gmap string bytes :=
  foldl (fun m pb => <[pb.1 := pb.2]> m) m ws.

(** [line] is the message of a reachability check of the trace [new]
    whose GET raised. *)
Definition check_failure_line (new : list Event) (line : string) : Prop :=
  exists url e,
    line = "Error accessing " +:+ url +:+ ": " +:+ e /\
    (EvGet (check_request url) (HttpRequestException e) ∈ new \/
     EvGet (check_request url) (HttpValueError e) ∈ new).

(** ** Concrete worlds, used to run the program *)
Module Samples.

Definition w0 : World := {| trace := []; fs := {| files := ∅; dirs := ∅ |} |}.

Definition bgr : Mat :=
  {| mat_rows := 1; mat_cols := 1; mat_channels := 3; mat_data := [10; 20; 30] |}.

Definition to_gray (m : Mat) : Mat :=
  {| mat_rows := mat_rows m; mat_cols := mat_cols m; mat_channels := 1;
     mat_data := take (mat_rows m * mat_cols m) (mat_data m) |}.

(** An environment whose services do not look at the history. *)
Definition mk_env (gen : GenOutcome) (http : Request -> HttpOutcome)
    (decode : bytes -> option Mat) : Env :=
  {| base_dir := "/srv/app/src";
     generate_content := fun _ _ _ => gen;
     requests_get := fun _ req => http req;
     imdecode := decode;
     cvtColor_BGR2GRAY := to_gray;
     imencode := fun _ _ => Some [Byte.x47] |}.

Definition two_lines : string := "https://img.example.org/cat.png
https://img.example.org/dog.jpg".

Definition answer (code : Z) : HttpOutcome :=
  HttpResponse {| status_code := code; content := [Byte.x89; Byte.x50] |}.

(** Every URL answers 200 and every file decodes. *)
Definition env_ok : Env :=
  mk_env (GenResponse (Some two_lines)) (fun _ => answer 200) (fun _ => Some bgr).

(** The text service is down. *)
Definition env_server_error : Env :=
  mk_env (GenServerError "503 UNAVAILABLE") (fun _ => answer 200) (fun _ => Some bgr).

(** Every URL answers 404. *)
Definition env_404 : Env :=
  mk_env (GenResponse (Some two_lines)) (fun _ => answer 404) (fun _ => Some bgr).

(** Every GET fails in the network. *)
Definition env_unreachable : Env :=
  mk_env (GenResponse (Some two_lines))
    (fun _ => HttpRequestException "connection refused") (fun _ => Some bgr).

(** Downloads work, nothing decodes. *)
Definition env_corrupt : Env :=
  mk_env (GenResponse (Some two_lines)) (fun _ => answer 200) (fun _ => None).

(** The service lists one URL twice. *)
Definition dup_url : string := "https://img.example.org/cat.png".

Definition env_dup : Env :=
  mk_env (GenResponse (Some (dup_url +:+ "
" +:+ dup_url))) (fun _ => answer 200) (fun _ => Some bgr).

End Samples.

(** Further worlds: a rejected API key and an extraction answer
    without text. *)
Module MoreSamples.



(** A world that already holds files. *)
Definition w_files : World :=
  {| trace := [];
     fs := {| files := {[ "/srv/app/notes.txt" := [Byte.x68; Byte.x69] ]};
              dirs := {[ "/srv/app" ]} |} |}.

End MoreSamples.
(** ** The string functions on examples *)

Example splitext_png : PyStr.splitext "https://example.org/a/cat.png" = ("https://example.org/a/cat", ".png").
Proof. reflexivity. Qed.

Example splitext_hidden : PyStr.splitext "https://example.org/a/.png" = ("https://example.org/a/.png", "").
Proof. reflexivity. Qed.

Example split_lines : PyStr.split "010" "a
b" = ["a"; "b"].
Proof. reflexivity. Qed.

Example strip_ex : PyStr.strip "  ab c
" = "ab c".
Proof. reflexivity. Qed.

Example str_nat_ex : PyStr.str_nat 12 = "12".
Proof. reflexivity. Qed.

Example int_ex : PyStr.int " -1_0 " = Some (-10).
Proof. reflexivity. Qed.

Example dirname_ex : PyStr.dirname "/srv/app/src/../images/1.png" = "/srv/app/src/../images".
Proof. reflexivity. Qed.

Example join_ex : PyStr.join "/srv/app/src" [".."; "images"] = "/srv/app/src/../images".
Proof. reflexivity. Qed.

(** ** Running the monad *)

Lemma bind_run {A B} (m : M A) (k : A -> M B) (w : World) :
  (m ≫= k) w =
  match m w with
  | (Ret a, w') => k a w'
  | (Exit c, w') => (Exit c, w')
  | (Raise e, w') => (Raise e, w')
  | (OutOfFuel, w') => (OutOfFuel, w')
  end.
Proof. reflexivity. Qed.

Lemma bind_ret_run {A B} (m : M A) (k : A -> M B) (w w' : World) (a : A) :
  m w = (Ret a, w') -> (m ≫= k) w = k a w'.
Proof. intros H. rewrite bind_run, H. reflexivity. Qed.

Lemma bind_exit_run {A B} (m : M A) (k : A -> M B) (w w' : World) (c : Z) :
  m w = (Exit c, w') -> (m ≫= k) w = (Exit c, w').
Proof. intros H. rewrite bind_run, H. reflexivity. Qed.

Lemma bind_raise_run {A B} (m : M A) (k : A -> M B) (w w' : World) (e : Exn) :
  m w = (Raise e, w') -> (m ≫= k) w = (Raise e, w').
Proof. intros H. rewrite bind_run, H. reflexivity. Qed.

Lemma mret_run {A} (a : A) (w : World) : (mret a : M A) w = (Ret a, w).
Proof. reflexivity. Qed.

Ltac run_m :=
  repeat first
    [ rewrite bind_run
    | rewrite mret_run
    | progress cbn [fst snd] ].

Lemma get_run (env : Env) (req : Request) (w : World) :
  get env req w =
  (match requests_get env (trace w) req with
   | HttpResponse resp => Ret resp
   | HttpRequestException e => Raise (RequestException e)
   | HttpValueError e => Raise (ValueError e)
   end, emit (EvGet req (requests_get env (trace w) req)) w).
Proof. unfold get. destruct (requests_get env (trace w) req); reflexivity. Qed.

(** [is_accessible] by cases on what the GET does. *)
Lemma is_accessible_run (env : Env) (url : string) (w : World) :
  is_accessible env url w =
  match requests_get env (trace w) (check_request url) with
  | HttpResponse r =>
      (Ret (status_code r =? 200),
       emit (EvGet (check_request url) (HttpResponse r)) w)
  | HttpRequestException e =>
      (Ret false,
       emit (EvPrint ("Error accessing " +:+ url +:+ ": " +:+ e))
         (emit (EvGet (check_request url) (HttpRequestException e)) w))
  | HttpValueError e =>
      (Ret false,
       emit (EvPrint ("Error accessing " +:+ url +:+ ": " +:+ e))
         (emit (EvGet (check_request url) (HttpValueError e)) w))
  end.
Proof.
  unfold is_accessible, try_except. rewrite bind_run, get_run.
  fold (check_request url).
  destruct (requests_get env (trace w) (check_request url)); reflexivity.
Qed.

(** [download_image] by cases on what the GET does. *)
Lemma download_image_run (env : Env) (url filename : string) (w : World) :
  download_image env url filename w =
  match requests_get env (trace w) (download_request url) with
  | HttpResponse r =>
      if status_code r =? 200 then
        (Ret tt,
         {| trace := trace w ++ [EvGet (download_request url) (HttpResponse r);
                                 EvMakedirs (PyStr.dirname filename);
                                 EvWrite filename (content r)];
            fs := {| files := <[filename := content r]> (files (fs w));
                     dirs := {[ PyStr.dirname filename ]} ∪ dirs (fs w) |} |})
      else
        (Exit 1,
         {| trace := trace w ++ [EvGet (download_request url) (HttpResponse r);
                                 EvPrint ("Error while downloading image from " +:+ url)];
            fs := fs w |})
  | HttpRequestException e =>
      (Raise (RequestException e),
       emit (EvGet (download_request url) (HttpRequestException e)) w)
  | HttpValueError e =>
      (Raise (ValueError e),
       emit (EvGet (download_request url) (HttpValueError e)) w)
  end.
Proof.
  unfold download_image. rewrite bind_run, get_run.
  fold (download_request url).
  destruct (requests_get env (trace w) (download_request url)) as [r|e|e];
    try reflexivity.
  destruct (status_code r =? 200);
    unfold mbind, M_bind, bind, makedirs, write_file, print, sys_exit, emit;
    cbn; rewrite <- ?app_assoc; reflexivity.
Qed.

(** [to_grayscale] by cases on what [cv2.imread] and [cv2.imwrite] do. *)
Lemma to_grayscale_run (env : Env) (input_image output_image : string) (w : World) :
  to_grayscale env input_image output_image w =
  match files (fs w) !! input_image ≫= imdecode env with
  | None => (Ret tt, emit (EvPrint ("Error: could not read " +:+ input_image)) w)
  | Some image =>
      match imencode env output_image (cvtColor_BGR2GRAY env image) with
      | Some data =>
          (Ret tt,
           {| trace := trace w ++ [EvMakedirs (PyStr.dirname output_image);
                                   EvImwrite output_image data];
              fs := {| files := <[output_image := data]> (files (fs w));
                       dirs := {[ PyStr.dirname output_image ]} ∪ dirs (fs w) |} |})
      | None =>
          (Raise CvError,
           {| trace := trace w ++ [EvMakedirs (PyStr.dirname output_image)];
              fs := {| files := files (fs w);
                       dirs := {[ PyStr.dirname output_image ]} ∪ dirs (fs w) |} |})
      end
  end.
Proof.
  unfold to_grayscale. rewrite bind_run. unfold imread at 1.
  destruct (files (fs w) !! input_image ≫= imdecode env) as [image|]; [|reflexivity].
  unfold mbind, M_bind, bind, makedirs, imwrite; cbn.
  destruct (imencode env output_image (cvtColor_BGR2GRAY env image));
    cbn; rewrite <- ?app_assoc; reflexivity.
Qed.

(** ** Fetch: [download_image] *)

(** C3. When the download GET answers with a status other than 200,
    [download_image] prints its error line and exits with code 1, and the
    file system is what it was: no destination file, empty or partial, and
    no directory is created.  The destination is written only on status
    200, and then with the whole response body. *)
Theorem C3_download_image_non_200 (env : Env) (url filename : string) (w : World) :
  (forall r,
      requests_get env (trace w) (download_request url) = HttpResponse r ->
      status_code r <> 200 ->
      exists w',
        download_image env url filename w = (Exit 1, w') /\
        fs w' = fs w /\
        trace w' = trace w ++ [EvGet (download_request url) (HttpResponse r);
                               EvPrint ("Error while downloading image from " +:+ url)]) /\
  (forall res w',
      download_image env url filename w = (res, w') ->
      fs w' <> fs w ->
      exists r,
        requests_get env (trace w) (download_request url) = HttpResponse r /\
        status_code r = 200 /\ res = Ret tt /\
        files (fs w') = <[filename := content r]> (files (fs w))).
Proof.
  split.
  - intros r Hget Hcode. rewrite download_image_run, Hget.
    apply Z.eqb_neq in Hcode. rewrite Hcode.
    eexists. split; [reflexivity|]. split; reflexivity.
  - intros res w'. rewrite download_image_run.
    destruct (requests_get env (trace w) (download_request url)) as [r|e|e].
    + destruct (status_code r =? 200) eqn:Hcode.
      * intros [= <- <-] _. exists r. apply Z.eqb_eq in Hcode. auto.
      * intros [= <- <-] Hfs. exfalso. apply Hfs. reflexivity.
    + intros [= <- <-] Hfs. exfalso. apply Hfs. reflexivity.
    + intros [= <- <-] Hfs. exfalso. apply Hfs. reflexivity.
Qed.

(** ** Conversion: [to_grayscale] *)

(** C4. When [cv2.imread] gives [None] (the file is missing or its bytes
    do not decode), [to_grayscale] prints its error line and returns; the
    file system is untouched, so there is neither an output file nor an
    output directory; and the driver's loop goes on with the next index. *)
Theorem C4_to_grayscale_undecodable (env : Env) (input_image output_image : string)
    (w : World) :
  files (fs w) !! input_image ≫= imdecode env = None ->
  to_grayscale env input_image output_image w =
    (Ret tt, emit (EvPrint ("Error: could not read " +:+ input_image)) w) /\
  fs (to_grayscale env input_image output_image w).2 = fs w /\
  (forall image_urls i indices url w0,
      image_urls !! i = Some url ->
      download_image env url (imagefile env i url) w0 = (Ret tt, w) ->
      input_image = imagefile env i url ->
      main_loop env image_urls (i :: indices) w0 =
      main_loop env image_urls indices
        (emit (EvPrint ("Error: could not read " +:+ input_image)) w)).
Proof.
  intros Hread.
  assert (Hrun : forall out, to_grayscale env input_image out w =
            (Ret tt, emit (EvPrint ("Error: could not read " +:+ input_image)) w)).
  { intros out. rewrite to_grayscale_run, Hread. reflexivity. }
  split; [apply Hrun|]. split; [rewrite Hrun; reflexivity|].
  intros image_urls i indices url w0 Hi Hdl ->.
  cbn [main_loop]. rewrite Hi.
  rewrite bind_run, mret_run.
  rewrite (bind_ret_run _ _ _ _ _ Hdl).
  rewrite (bind_ret_run _ _ _ _ _ (Hrun _)). reflexivity.
Qed.

(** ** Reachability: [is_accessible] *)

(** C6. [is_accessible] always returns a boolean: it neither raises nor
    exits.  When the GET raises (a malformed URL, a network error) the
    exception is caught, a line naming the URL and the error is printed
    and the answer is [False]; the [for] loop of the acquisition then goes
    on with the remaining candidates, the list of accepted URLs as it
    was. *)
Theorem C6_is_accessible_total (env : Env) (url : string) (w : World) :
  (exists b w', is_accessible env url w = (Ret b, w')) /\
  (forall e,
      requests_get env (trace w) (check_request url) = HttpRequestException e \/
      requests_get env (trace w) (check_request url) = HttpValueError e ->
      exists w',
        is_accessible env url w = (Ret false, w') /\
        trace w' = trace w ++ [EvGet (check_request url)
                                 (requests_get env (trace w) (check_request url));
                               EvPrint ("Error accessing " +:+ url +:+ ": " +:+ e)] /\
        fs w' = fs w /\
        forall numimages candidate urls image_urls,
          PyStr.strip candidate = url ->
          Z.of_nat (length image_urls) <> numimages ->
          for_urls env numimages (candidate :: urls) image_urls w =
          for_urls env numimages urls image_urls w').
Proof.
  split.
  - rewrite is_accessible_run.
    destruct (requests_get env (trace w) (check_request url)); eauto.
  - intros e He.
    assert (Hrun : is_accessible env url w =
              (Ret false,
               emit (EvPrint ("Error accessing " +:+ url +:+ ": " +:+ e))
                 (emit (EvGet (check_request url)
                          (requests_get env (trace w) (check_request url))) w))).
    { rewrite is_accessible_run. destruct He as [-> | ->]; reflexivity. }
    eexists. split; [exact Hrun|].
    split; [cbn; rewrite <- app_assoc; reflexivity|].
    split; [reflexivity|].
    intros numimages candidate urls image_urls <- Hlen.
    cbn [for_urls]. rewrite (bind_ret_run _ _ _ _ _ Hrun).
    apply Z.eqb_neq in Hlen. rewrite Hlen. reflexivity.
Qed.

(** ** Acquisition: [generate_image_urls] *)

Lemma client_generate_content_run (env : Env) (model contents : string) (w : World) :
  client_generate_content env model contents w =
  (match generate_content env (trace w) model contents with
   | GenResponse text => Ret text
   | GenServerError m => Raise (ServerError m)
   | GenClientError m => Raise (ClientError m)
   end, emit (EvGenerate model contents (generate_content env (trace w) model contents)) w).
Proof.
  unfold client_generate_content.
  destruct (generate_content env (trace w) model contents); reflexivity.
Qed.

(** One reachability check adds check events only; it accepts the URL
    exactly when its GET is answered 200. *)
Lemma is_accessible_spec (env : Env) (url : string) (w : World) :
  exists b w' new,
    is_accessible env url w = (Ret b, w') /\
    trace w' = trace w ++ new /\ fs w' = fs w /\
    Forall check_event new /\
    Forall (fun e => is_server_error e = false) new /\
    omap accepted new = (if b then [url] else []).
Proof.
  rewrite is_accessible_run.
  destruct (requests_get env (trace w) (check_request url)) as [r|e|e].
  - exists (status_code r =? 200), (emit (EvGet (check_request url) (HttpResponse r)) w),
      [EvGet (check_request url) (HttpResponse r)].
    repeat split; auto using check_event.
    cbn. destruct (status_code r =? 200); reflexivity.
  - eexists false, _, [_; _]. split; [reflexivity|].
    split; [cbn; rewrite <- app_assoc; reflexivity|].
    repeat split; auto using check_event.
  - eexists false, _, [_; _]. split; [reflexivity|].
    split; [cbn; rewrite <- app_assoc; reflexivity|].
    repeat split; auto using check_event.
Qed.

(** The [for] loop always returns; what it appends to [image_urls] is,
    in order, the URLs whose checks were answered 200, and it never
    goes past [numimages]. *)
Lemma for_urls_spec (env : Env) (numimages : Z) (urls : list string) :
  forall (image_urls : list string) (w : World),
  exists l w' new,
    for_urls env numimages urls image_urls w = (Ret l, w') /\
    trace w' = trace w ++ new /\ fs w' = fs w /\
    Forall check_event new /\
    Forall (fun e => is_server_error e = false) new /\
    l = image_urls ++ omap accepted new /\
    (Z.of_nat (length image_urls) < numimages -> Z.of_nat (length l) <= numimages).
Proof.
  induction urls as [|url urls IH]; intros image_urls w.
  - exists image_urls, w, []. cbn. rewrite !app_nil_r. repeat split; auto. lia.
  - cbn [for_urls].
    destruct (is_accessible_spec env (PyStr.strip url) w)
      as (b & w1 & new1 & Hrun & Htr & Hfs & Hchk & Hse & Hacc).
    rewrite (bind_ret_run _ _ _ _ _ Hrun).
    set (l1 := if b then image_urls ++ [PyStr.strip url] else image_urls).
    assert (Hl1 : l1 = image_urls ++ omap accepted new1).
    { subst l1. rewrite Hacc. destruct b; [reflexivity|]. now rewrite app_nil_r. }
    assert (Hlen1 : Z.of_nat (length image_urls) < numimages ->
                    Z.of_nat (length l1) <= numimages).
    { subst l1. destruct b; [|lia]. rewrite length_app. cbn. lia. }
    destruct (Z.of_nat (length l1) =? numimages) eqn:Hbreak.
    + exists l1, w1, new1. rewrite mret_run. repeat split; auto.
    + destruct (IH l1 w1) as (l & w' & new & Hrun' & Htr' & Hfs' & Hchk' & Hse' & Hl & Hlen).
      exists l, w', (new1 ++ new). rewrite Hrun'.
      split; [reflexivity|].
      split; [rewrite Htr', Htr, app_assoc; reflexivity|].
      split; [congruence|].
      split; [apply Forall_app; auto|].
      split; [apply Forall_app; auto|].
      split; [rewrite omap_app, app_assoc, <- Hl1; exact Hl|].
      intros Hlt. apply Hlen. apply Z.eqb_neq in Hbreak. specialize (Hlen1 Hlt). lia.
Qed.

Lemma acquisition_post_prepend (numimages : Z) (image_urls l1 : list string)
    (new1 new : list Event) (r : Result (list string)) :
  Forall (fun e => is_server_error e = false) new1 ->
  l1 = image_urls ++ omap accepted new1 ->
  Z.of_nat (length image_urls) <= Z.of_nat (length l1) <= Z.max numimages (Z.of_nat (length image_urls)) ->
  acquisition_post numimages l1 new r ->
  acquisition_post numimages image_urls (new1 ++ new) r.
Proof.
  intros Hse Hl1 Hlen. destruct r as [l| |[]|]; cbn.
  - intros (-> & Hse' & Hfull & Hmax). repeat split.
    + rewrite omap_app, app_assoc, <- Hl1. reflexivity.
    + apply Forall_app; auto.
    + exact Hfull.
    + lia.
  - auto.
  - intros (pre & prompt & -> & Hpre). exists (new1 ++ pre), prompt.
    split; [now rewrite app_assoc|]. apply Forall_app; auto.
  - intros H; apply Forall_app; auto.
  - intros H; apply Forall_app; auto.
  - intros H; apply Forall_app; auto.
  - intros H; apply Forall_app; auto.
  - intros H; apply Forall_app; auto.
  - intros H; apply Forall_app; auto.
  - intros H; apply Forall_app; auto.
Qed.

(** The [while] loop, whatever the services do: it adds acquisition
    events only, leaves the files alone, and ends as [acquisition_post]
    says. *)
Lemma while_urls_spec (env : Env) (fuel : nat) :
  forall (numimages : Z) (image_urls : list string) (w : World) r w',
    while_urls env fuel numimages image_urls w = (r, w') ->
    exists new,
      trace w' = trace w ++ new /\ fs w' = fs w /\
      Forall acquisition_event new /\
      acquisition_post numimages image_urls new r.
Proof.
  induction fuel as [|fuel IH]; intros numimages image_urls w r w'.
  - cbn [while_urls].
    destruct (Z.of_nat (length image_urls) <? numimages) eqn:Hlt.
    + intros [= <- <-]. exists []. rewrite app_nil_r. repeat split; auto. constructor.
    + intros [= <- <-]. exists []. rewrite !app_nil_r. apply Z.ltb_ge in Hlt.
      repeat split; auto; cbn; rewrite ?app_nil_r; auto; lia.
  - cbn [while_urls].
    destruct (Z.of_nat (length image_urls) <? numimages) eqn:Hlt.
    2:{ intros [= <- <-]. exists []. rewrite !app_nil_r. apply Z.ltb_ge in Hlt.
        repeat split; auto; cbn; rewrite ?app_nil_r; auto; lia. }
    apply Z.ltb_lt in Hlt.
    rewrite bind_run, client_generate_content_run.
    set (p1 := generation_prompt numimages).
    set (o1 := generate_content env (trace w) GENAI_MODEL p1).
    set (e1 := EvGenerate GENAI_MODEL p1 o1).
    destruct o1 as [text1|m|m] eqn:Ho1.
    2:{ intros [= <- <-]. exists [e1]. repeat split; auto.
        - repeat constructor.
        - exists [], p1. split; [reflexivity | constructor]. }
    2:{ intros [= <- <-]. exists [e1]. repeat split; auto.
        - repeat constructor.
        - cbn. repeat constructor. }
    rewrite bind_run, client_generate_content_run.
    set (w1 := emit e1 w).
    set (p2 := extraction_prompt text1).
    set (o2 := generate_content env (trace w1) GENAI_MODEL p2).
    set (e2 := EvGenerate GENAI_MODEL p2 o2).
    destruct o2 as [text2|m|m] eqn:Ho2.
    2:{ intros [= <- <-]. exists [e1; e2]. cbn. rewrite <- app_assoc.
        repeat split; auto.
        - repeat constructor.
        - exists [e1], p2. split; [reflexivity|]. repeat constructor. }
    2:{ intros [= <- <-]. exists [e1; e2]. cbn. rewrite <- app_assoc.
        repeat split; auto; repeat constructor. }
    set (w2 := emit e2 w1).
    destruct text2 as [text|].
    2:{ rewrite bind_run. intros [= <- <-]. exists [e1; e2]. cbn. rewrite <- app_assoc.
        repeat split; auto; repeat constructor. }
    rewrite bind_run, mret_run, bind_run.
    destruct (for_urls_spec env numimages (PyStr.split "010" (PyStr.strip text))
                image_urls w2)
      as (l1 & w3 & new3 & Hrun & Htr & Hfs & Hchk & Hse & Hl1 & Hlen).
    rewrite Hrun. intros Hrest.
    destruct (IH _ _ _ _ _ Hrest) as (new & Htr' & Hfs' & Hacq & Hpost).
    exists ([e1; e2] ++ new3 ++ new).
    split; [rewrite Htr', Htr; cbn; rewrite <- !app_assoc; reflexivity|].
    split; [rewrite Hfs', Hfs; reflexivity|].
    split.
    { apply Forall_app. split; [repeat constructor|].
      apply Forall_app. split; [|exact Hacq].
      eapply Forall_impl; [exact Hchk|]. intros; now constructor. }
    rewrite app_assoc.
    apply (acquisition_post_prepend numimages image_urls l1); [ | | | exact Hpost].
    + apply Forall_app. split; [repeat constructor | exact Hse].
    + cbn. exact Hl1.
    + specialize (Hlen Hlt). rewrite Hl1, length_app in *. lia.
Qed.

Lemma generate_image_urls_run (env : Env) (fuel : nat) (numimages : Z) (w : World) :
  generate_image_urls env fuel numimages w =
  match while_urls env fuel numimages [] w with
  | (Raise (ServerError m), w') => (Exit 1, emit (EvPrint ("Error: " +:+ m)) w')
  | other => other
  end.
Proof.
  unfold generate_image_urls, try_except.
  destruct (while_urls env fuel numimages [] w) as [[l|c|[]|] w']; reflexivity.
Qed.

(** C8. For a count of zero or less, [generate_image_urls] returns the
    empty list at once: the world is what it was, so no generation,
    extraction or reachability request was sent. *)
Theorem C8_no_request_for_nonpositive_count (env : Env) (fuel : nat)
    (numimages : Z) (w : World) :
  numimages <= 0 ->
  generate_image_urls env fuel numimages w = (Ret [], w).
Proof.
  intros Hn. rewrite generate_image_urls_run.
  assert (Hw : while_urls env fuel numimages [] w = (Ret [], w)).
  { destruct fuel; cbn [while_urls length];
      replace (Z.of_nat 0 <? numimages) with false
        by (symmetry; apply Z.ltb_ge; lia); reflexivity. }
  rewrite Hw. reflexivity.
Qed.

(** C5. If, during the acquisition, a call of the text service raises
    [ServerError], [generate_image_urls] prints ["Error: "] followed by
    the error's message and exits with code 1, these being the last two
    events; and a list it returns is never shorter than the count asked
    for. *)
Theorem C5_server_error_is_fatal (env : Env) (fuel : nat) (numimages : Z)
    (w w' : World) (res : Result (list string)) :
  generate_image_urls env fuel numimages w = (res, w') ->
  (forall new,
      trace w' = trace w ++ new ->
      Exists (fun e => is_server_error e = true) new ->
      res = Exit 1 /\
      exists pre prompt m,
        new = pre ++ [EvGenerate GENAI_MODEL prompt (GenServerError m);
                      EvPrint ("Error: " +:+ m)]) /\
  (forall l, res = Ret l -> ~ Z.of_nat (length l) < numimages).
Proof.
  rewrite generate_image_urls_run.
  destruct (while_urls env fuel numimages [] w) as [r0 w0] eqn:Hw.
  destruct (while_urls_spec _ _ _ _ _ _ _ Hw) as (new0 & Htr & Hfs & Hacq & Hpost).
  assert (Hclean : forall new,
             Forall (fun e => is_server_error e = false) new ->
             Exists (fun e => is_server_error e = true) new -> False).
  { intros new Hall Hex. apply Exists_exists in Hex as (e & Hin & He).
    rewrite Forall_forall in Hall. specialize (Hall e Hin). congruence. }
  destruct r0 as [l| |e|]; cbn in Hpost.
  - intros [= <- <-]. destruct Hpost as (_ & Hse & Hfull & _). split.
    + intros new Hnew Hex. rewrite Htr in Hnew. apply app_inv_head in Hnew. subst new0.
      destruct (Hclean _ Hse Hex).
    + intros l' [= <-]. exact Hfull.
  - destruct Hpost.
  - destruct e as [m| | | | | | ];
      try (intros [= <- <-]; split;
           [ intros new Hnew Hex; rewrite Htr in Hnew; apply app_inv_head in Hnew;
             subst new0; destruct (Hclean _ Hpost Hex)
           | intros l' [=] ]).
    intros [= <- <-]. destruct Hpost as (pre & prompt & -> & Hpre). split.
    + intros new Hnew _. split; [reflexivity|].
      exists pre, prompt, m. cbn in Hnew. rewrite Htr, <- !app_assoc in Hnew.
      apply app_inv_head in Hnew. subst new. reflexivity.
    + intros l' [=].
  - intros [= <- <-]. split.
    + intros new Hnew Hex. rewrite Htr in Hnew. apply app_inv_head in Hnew. subst new0.
      destruct (Hclean _ Hpost Hex).
    + intros l' [=].
Qed.

(** A check of a reachable URL accepts it. *)
Lemma is_accessible_reachable (env : Env) (url : string) (w : World) :
  reachable env url -> exists w', is_accessible env url w = (Ret true, w').
Proof.
  intros Hreach. destruct (Hreach (trace w)) as (r & Hget & Hcode).
  rewrite is_accessible_run, Hget.
  apply Z.eqb_eq in Hcode. rewrite Hcode. eauto.
Qed.

(** A batch with a reachable line makes the list longer. *)
Lemma for_urls_progress (env : Env) (numimages : Z) (urls : list string) :
  forall (image_urls l : list string) (w w' : World),
    (exists line, line ∈ urls /\ reachable env (PyStr.strip line)) ->
    Z.of_nat (length image_urls) < numimages ->
    for_urls env numimages urls image_urls w = (Ret l, w') ->
    (length image_urls < length l)%nat.
Proof.
  induction urls as [|url urls IH]; intros image_urls l w w' (line & Hin & Hreach) Hlt.
  - inversion Hin.
  - cbn [for_urls].
    destruct (is_accessible_spec env (PyStr.strip url) w)
      as (b & w1 & new1 & Hrun & _ & _ & _ & _ & _).
    rewrite (bind_ret_run _ _ _ _ _ Hrun).
    set (l1 := if b then image_urls ++ [PyStr.strip url] else image_urls).
    assert (Hmono : (length image_urls <= length l1)%nat).
    { subst l1. destruct b; [rewrite length_app; cbn|]; lia. }
    destruct (Z.of_nat (length l1) =? numimages) eqn:Hbreak.
    + rewrite mret_run. intros [= <- <-]. apply Z.eqb_eq in Hbreak. lia.
    + apply Z.eqb_neq in Hbreak. intros Hrest.
      apply elem_of_cons in Hin as [-> | Hin].
      * destruct (is_accessible_reachable env (PyStr.strip url) w Hreach) as (w1' & Hacc).
        rewrite Hacc in Hrun. injection Hrun as <- <-.
        destruct (for_urls_spec env numimages urls l1 w1')
          as (l' & w'' & new & Hrun' & _ & _ & _ & _ & Hl' & _).
        rewrite Hrun' in Hrest. injection Hrest as <- <-.
        rewrite Hl'. subst l1. rewrite !length_app. cbn. lia.
      * assert (Hlt1 : Z.of_nat (length l1) < numimages).
        { subst l1. destruct b; [|lia].
          rewrite length_app in *. cbn in *. lia. }
        specialize (IH l1 l w1 w' (ex_intro _ line (conj Hin Hreach)) Hlt1 Hrest). lia.
Qed.

(** With a productive service the [while] loop returns as soon as its
    budget covers the URLs still missing. *)
Lemma while_urls_returns (env : Env) (numimages : Z) :
  productive env ->
  forall (fuel : nat) (image_urls : list string) (w : World),
    numimages - Z.of_nat (length image_urls) <= Z.of_nat fuel ->
    exists l w', while_urls env fuel numimages image_urls w = (Ret l, w').
Proof.
  intros Hprod. induction fuel as [|fuel IH]; intros image_urls w Hfuel.
  - cbn [while_urls].
    replace (Z.of_nat (length image_urls) <? numimages) with false
      by (symmetry; apply Z.ltb_ge; lia).
    eauto.
  - cbn [while_urls].
    destruct (Z.of_nat (length image_urls) <? numimages) eqn:Hlt; [|eauto].
    apply Z.ltb_lt in Hlt.
    rewrite bind_run, client_generate_content_run.
    destruct (Hprod (trace w) GENAI_MODEL (generation_prompt numimages))
      as (text1 & -> & _).
    rewrite bind_run, client_generate_content_run.
    match goal with
    | |- context [generate_content env ?t ?m ?p] =>
        destruct (Hprod t m p) as (text & -> & Hline)
    end.
    rewrite bind_run, mret_run, bind_run.
    match goal with
    | |- context [for_urls env numimages ?us image_urls ?w2] =>
        destruct (for_urls_spec env numimages us image_urls w2)
          as (l1 & w3 & new3 & Hrun & _);
        pose proof (for_urls_progress env numimages us image_urls l1 w2 w3 Hline Hlt Hrun)
          as Hgrow;
        rewrite Hrun
    end.
    apply IH. lia.
Qed.

(** An accepted URL of an acquisition trace is the URL of one of its
    reachability GETs, answered 200. *)
Lemma accepted_checked (new : list Event) (url : string) :
  Forall acquisition_event new ->
  url ∈ omap accepted new ->
  exists r, EvGet (check_request url) (HttpResponse r) ∈ new /\ status_code r = 200.
Proof.
  intros Hacq Hin. apply list_elem_of_omap in Hin as (e & Hin & He).
  rewrite Forall_forall in Hacq. specialize (Hacq e Hin).
  destruct Hacq as [prompt r | e [u o | line]]; try discriminate.
  destruct o as [r| |]; try discriminate. cbn in He.
  destruct (status_code r =? 200) eqn:Hcode; [|discriminate].
  injection He as <-. exists r. split; [exact Hin | now apply Z.eqb_eq].
Qed.

(** C1, as the claim has it, fails: with the text service down,
    [generate_image_urls(1)] returns no list, whatever the loop budget. *)
Lemma C1_counterexample_service_down :
  ~ exists fuel l w',
      generate_image_urls Samples.env_server_error fuel 1 Samples.w0 = (Ret l, w') /\
      Z.of_nat (length l) = 1.
Proof.
  intros (fuel & l & w' & Hrun & _). destruct fuel; vm_compute in Hrun; discriminate.
Qed.

(** A second way not to return: when no candidate is ever reachable the
    loop asks again and again. *)
Lemma generate_image_urls_starves (fuel : nat) (w : World) :
  (generate_image_urls Samples.env_404 fuel 1 w).1 = OutOfFuel.
Proof.
  rewrite generate_image_urls_run.
  assert (H : (while_urls Samples.env_404 fuel 1 [] w).1 = OutOfFuel).
  { revert w. induction fuel as [|fuel IH]; intros w; [reflexivity|].
    cbn [while_urls]. change (Z.of_nat (length (@nil string)) <? 1) with true. cbv iota.
    rewrite bind_run, client_generate_content_run. cbn [Samples.env_404 Samples.mk_env generate_content].
    rewrite bind_run, client_generate_content_run. cbn [Samples.env_404 Samples.mk_env generate_content].
    rewrite bind_run, mret_run, bind_run.
    match goal with
    | |- context [for_urls ?e ?n ?us [] ?w2] =>
        replace (for_urls e n us [] w2) with
          (Ret (@nil string),
           emit (EvGet (check_request "https://img.example.org/dog.jpg") (Samples.answer 404))
             (emit (EvGet (check_request "https://img.example.org/cat.png") (Samples.answer 404)) w2))
          by reflexivity
    end.
    apply IH. }
  destruct (while_urls Samples.env_404 fuel 1 [] w) as [r w']. cbn in H. subst r. reflexivity.
Qed.

(** C1 (amended). For a count of at least one: whenever
    [generate_image_urls] returns, the list has exactly that many URLs
    and is, in order, the URLs of the reachability GETs of this call that
    were answered 200, so each was reachable when it was appended; and it
    does return, within [numimages] rounds, when the text service is
    productive.  (When the service raises, or never offers a reachable
    URL, no list is returned.) *)
Theorem C1_acquisition_returns_checked_urls (env : Env) (numimages : Z) (w : World) :
  1 <= numimages ->
  (forall fuel l w',
      generate_image_urls env fuel numimages w = (Ret l, w') ->
      Z.of_nat (length l) = numimages /\
      exists new,
        trace w' = trace w ++ new /\ fs w' = fs w /\
        l = omap accepted new /\
        forall url, url ∈ l ->
          exists r, EvGet (check_request url) (HttpResponse r) ∈ new /\
                    status_code r = 200) /\
  (productive env ->
   exists l w',
     generate_image_urls env (Z.to_nat numimages) numimages w = (Ret l, w')).
Proof.
  intros Hn. split.
  - intros fuel l w'. rewrite generate_image_urls_run.
    destruct (while_urls env fuel numimages [] w) as [r0 w0] eqn:Hw.
    destruct (while_urls_spec _ _ _ _ _ _ _ Hw) as (new & Htr & Hfs & Hacq & Hpost).
    destruct r0 as [l0| |[]|]; intros [= <- <-].
    cbn in Hpost. destruct Hpost as (Hl & _ & Hfull & Hmax). cbn in Hl, Hmax.
    split; [lia|]. exists new. repeat split; auto.
    intros url Hin. apply accepted_checked; [exact Hacq | now rewrite <- Hl].
  - intros Hprod.
    destruct (while_urls_returns env numimages Hprod (Z.to_nat numimages) [] w)
      as (l & w' & Hrun); [cbn; lia|].
    exists l, w'. rewrite generate_image_urls_run, Hrun. reflexivity.
Qed.

Lemma productive_env_ok : productive Samples.env_ok.
Proof.
  intros t model prompt. exists Samples.two_lines. split; [reflexivity|].
  exists "https://img.example.org/cat.png". split.
  - vm_compute. left.
  - intros t'. eexists. split; reflexivity.
Qed.

(** C9. Nothing removes duplicates: when the service lists one reachable
    URL on two lines, [generate_image_urls(2)] returns that URL twice, and
    the driver then downloads two different raw files, [1.png] and
    [2.png], from it. *)
Theorem C9_no_deduplication :
  exists (env : Env) (url : string) (w' w'' : World),
    generate_image_urls env 1 2 Samples.w0 = (Ret [url; url], w') /\
    main env 1 ["imageprocessing.py"; "2"] Samples.w0 = (Ret tt, w'') /\
    imagefile env 0 url <> imagefile env 1 url /\
    raw_written (trace w'') = [imagefile env 0 url; imagefile env 1 url] /\
    omap (fun e => match e with
                   | EvGet req _ =>
                       if decide (req = download_request (req_url req))
                       then Some (req_url req) else None
                   | _ => None
                   end) (trace w'') = [url; url] /\
    is_Some (files (fs w'') !! imagefile env 0 url) /\
    is_Some (files (fs w'') !! imagefile env 1 url).
Proof.
  exists Samples.env_dup, Samples.dup_url.
  eexists. eexists.
  split; [vm_compute; reflexivity|].
  split; [vm_compute; reflexivity|].
  split; [vm_compute; discriminate|].
  split; [vm_compute; reflexivity|].
  split; [vm_compute; reflexivity|].
  split; vm_compute; eexists; reflexivity.
Qed.

(** ** The driver *)

Lemma prefix_cons_cases {A} (t : list A) (x : A) (l : list A) :
  t `prefix_of` (x :: l) -> t = [] \/ exists t', t = x :: t' /\ t' `prefix_of` l.
Proof.
  destruct t as [|y t]; [now left|]. intros H. right.
  pose proof (prefix_cons_inv_1 _ _ _ _ H) as ->.
  exists t. split; [reflexivity|]. exact (prefix_cons_inv_2 _ _ _ _ H).
Qed.

Lemma prefix_app_cases' {A} (t a b : list A) :
  t `prefix_of` (a ++ b) ->
  t `prefix_of` a \/ exists t', t = a ++ t' /\ t' `prefix_of` b.
Proof.
  revert t. induction a as [|x a IH]; intros t H.
  - right. exists t. auto.
  - cbn in H. apply prefix_cons_cases in H as [-> | (t' & -> & H)].
    + left. apply prefix_nil.
    + destruct (IH _ H) as [Hp | (t'' & -> & Hp)].
      * left. now apply prefix_cons.
      * right. exists t''. auto.
Qed.

Ltac block_case :=
  cbn; first
    [ left; reflexivity
    | right; split; [reflexivity | repeat constructor] ].

(** One turn of the loop: what its two calls add to the trace. *)
Lemma turn_spec (env : Env) (i : nat) (url : string) (w : World) r w' :
  (download_image env url (imagefile env i url) ≫= fun _ =>
   to_grayscale env (imagefile env i url) (grayfile env i url)) w = (r, w') ->
  exists block, trace w' = trace w ++ block /\ block_ok env i url block.
Proof.
  rewrite bind_run, download_image_run.
  destruct (requests_get env (trace w) (download_request url)) as [resp|e|e].
  - destruct (status_code resp =? 200).
    + rewrite to_grayscale_run. cbn [fs files trace].
      destruct (_ ≫= imdecode env) as [image|].
      * destruct (imencode env _ _) as [data|]; intros [= <- <-]; cbn [trace];
          rewrite <- app_assoc; eexists; (split; [reflexivity|]);
          intros t Ht; cbn in Ht.
        -- apply prefix_cons_cases in Ht as [-> | (? & -> & Ht)]; [block_case|].
           apply prefix_cons_cases in Ht as [-> | (? & -> & Ht)]; [block_case|].
           apply prefix_cons_cases in Ht as [-> | (? & -> & Ht)]; [block_case|].
           apply prefix_cons_cases in Ht as [-> | (? & -> & Ht)]; [block_case|].
           apply prefix_cons_cases in Ht as [-> | (? & -> & Ht)]; [block_case|].
           apply prefix_nil_inv in Ht as ->. block_case.
        -- apply prefix_cons_cases in Ht as [-> | (? & -> & Ht)]; [block_case|].
           apply prefix_cons_cases in Ht as [-> | (? & -> & Ht)]; [block_case|].
           apply prefix_cons_cases in Ht as [-> | (? & -> & Ht)]; [block_case|].
           apply prefix_cons_cases in Ht as [-> | (? & -> & Ht)]; [block_case|].
           apply prefix_nil_inv in Ht as ->. block_case.
      * intros [= <- <-]; cbn [trace emit];
          rewrite <- app_assoc; eexists; (split; [reflexivity|]);
          intros t Ht; cbn in Ht.
        apply prefix_cons_cases in Ht as [-> | (? & -> & Ht)]; [block_case|].
        apply prefix_cons_cases in Ht as [-> | (? & -> & Ht)]; [block_case|].
        apply prefix_cons_cases in Ht as [-> | (? & -> & Ht)]; [block_case|].
        apply prefix_cons_cases in Ht as [-> | (? & -> & Ht)]; [block_case|].
        apply prefix_nil_inv in Ht as ->. block_case.
    + intros [= <- <-]. eexists. split; [reflexivity|]. intros t Ht.
      apply prefix_cons_cases in Ht as [-> | (? & -> & Ht)]; [block_case|].
      apply prefix_cons_cases in Ht as [-> | (? & -> & Ht)]; [block_case|].
      apply prefix_nil_inv in Ht as ->. block_case.
  - intros [= <- <-]. eexists. split; [reflexivity|]. intros t Ht.
    apply prefix_cons_cases in Ht as [-> | (? & -> & Ht)]; [block_case|].
    apply prefix_nil_inv in Ht as ->. block_case.
  - intros [= <- <-]. eexists. split; [reflexivity|]. intros t Ht.
    apply prefix_cons_cases in Ht as [-> | (? & -> & Ht)]; [block_case|].
    apply prefix_nil_inv in Ht as ->. block_case.
Qed.

Lemma gray_written_app (a b : list Event) :
  gray_written (a ++ b) = gray_written a ++ gray_written b.
Proof. apply omap_app. Qed.

Lemma raw_written_app (a b : list Event) :
  raw_written (a ++ b) = raw_written a ++ raw_written b.
Proof. apply omap_app. Qed.

(** A turn followed by the traces of the remaining turns. *)
Lemma gray_paired_turn (env : Env) (image_urls : list string) (i : nat)
    (indices : list nat) (url : string) (block rest : list Event) :
  image_urls !! i = Some url ->
  block_ok env i url block ->
  (forall t, t `prefix_of` rest -> gray_paired env image_urls indices t) ->
  forall t, t `prefix_of` (block ++ rest) ->
    gray_paired env image_urls (i :: indices) t.
Proof.
  intros Hi Hblock Hrest t Ht.
  assert (Hone : forall b, b `prefix_of` block ->
            gray_paired env image_urls (i :: indices) b).
  { intros b Hb. destruct (Hblock b Hb) as [Hg | [Hg Hraw]]; unfold gray_paired; rewrite Hg.
    - split; [cbn; lia|]. intros p Hp. inversion Hp.
    - split; [cbn; lia|]. intros p Hp. apply list_elem_of_singleton in Hp as ->.
      exists i, url. repeat split; auto. left. }
  apply prefix_app_cases' in Ht as [Hb | (t' & -> & Ht')]; [now apply Hone|].
  destruct (Hrest t' Ht') as [Hlen Hpair].
  destruct (Hone block (reflexivity _)) as [Hlenb Hpairb].
  assert (Hb1 : (length (gray_written block) <= 1)%nat).
  { destruct (Hblock block (reflexivity _)) as [-> | [-> _]]; cbn; lia. }
  split.
  - rewrite gray_written_app, length_app. cbn. lia.
  - intros p. rewrite gray_written_app, raw_written_app. intros Hp.
    apply elem_of_app in Hp as [Hp | Hp].
    + destruct (Hpairb p Hp) as (j & u & Hj & Hu & -> & Hraw).
      exists j, u. repeat split; auto. apply elem_of_app. now left.
    + destruct (Hpair p Hp) as (j & u & Hj & Hu & -> & Hraw).
      exists j, u. repeat split; auto.
      * now right.
      * apply elem_of_app. now right.
Qed.

(** The loop of the driver: at every moment, the grayscale files written
    so far are paired with raw files written so far. *)
Lemma main_loop_spec (env : Env) (image_urls : list string) (indices : list nat) :
  forall (w : World) r w',
    main_loop env image_urls indices w = (r, w') ->
    exists new,
      trace w' = trace w ++ new /\
      forall t, t `prefix_of` new -> gray_paired env image_urls indices t.
Proof.
  induction indices as [|i indices IH]; intros w r w'.
  - cbn. intros [= <- <-]. exists []. rewrite app_nil_r. split; [reflexivity|].
    intros t Ht. apply prefix_nil_inv in Ht as ->. split; [cbn; lia|].
    intros p Hp. inversion Hp.
  - cbn [main_loop]. rewrite bind_run.
    destruct (image_urls !! i) as [url|] eqn:Hi.
    2:{ intros [= <- <-]. exists []. rewrite app_nil_r. split; [reflexivity|].
        intros t Ht. apply prefix_nil_inv in Ht as ->. split; [cbn; lia|].
        intros p Hp. inversion Hp. }
    rewrite mret_run.
    assert (Hassoc : forall w0,
      (download_image env url (imagefile env i url) ≫= fun _ =>
       to_grayscale env (imagefile env i url) (grayfile env i url) ≫= fun _ =>
       main_loop env image_urls indices) w0 =
      ((download_image env url (imagefile env i url) ≫= fun _ =>
        to_grayscale env (imagefile env i url) (grayfile env i url)) ≫= fun _ =>
       main_loop env image_urls indices) w0).
    { intros w0. rewrite !bind_run.
      destruct (download_image env url (imagefile env i url) w0) as [[[]| | |] w1];
        reflexivity. }
    rewrite Hassoc, bind_run.
    destruct ((download_image env url (imagefile env i url) ≫= _) w) as [r1 w1] eqn:Hturn.
    destruct (turn_spec env i url w r1 w1 Hturn) as (block & Htr & Hblock).
    assert (Hstop : forall t, t `prefix_of` @nil Event ->
              gray_paired env image_urls indices t).
    { intros t Ht. apply prefix_nil_inv in Ht as ->. split; [cbn; lia|].
      intros p Hp. inversion Hp. }
    destruct r1 as [[]|c|e|].
    + intros Hrest. destruct (IH _ _ _ Hrest) as (new & Htr' & Hnew).
      exists (block ++ new). split; [rewrite Htr', Htr, app_assoc; reflexivity|].
      now apply gray_paired_turn with (url := url).
    + intros [= <- <-]. exists block. split; [exact Htr|].
      rewrite <- (app_nil_r block). now apply gray_paired_turn with (url := url).
    + intros [= <- <-]. exists block. split; [exact Htr|].
      rewrite <- (app_nil_r block). now apply gray_paired_turn with (url := url).
    + intros [= <- <-]. exists block. split; [exact Htr|].
      rewrite <- (app_nil_r block). now apply gray_paired_turn with (url := url).
Qed.

(** The acquisition as a whole: acquisition events only, the files
    untouched, and a returned list of [max numimages 0] URLs. *)
Lemma generate_image_urls_spec (env : Env) (fuel : nat) (numimages : Z)
    (w w' : World) (r : Result (list string)) :
  generate_image_urls env fuel numimages w = (r, w') ->
  exists new,
    trace w' = trace w ++ new /\ fs w' = fs w /\
    Forall acquisition_event new /\
    forall l, r = Ret l -> Z.of_nat (length l) = Z.max numimages 0.
Proof.
  rewrite generate_image_urls_run.
  destruct (while_urls env fuel numimages [] w) as [r0 w0] eqn:Hw.
  destruct (while_urls_spec _ _ _ _ _ _ _ Hw) as (new & Htr & Hfs & Hacq & Hpost).
  destruct r0 as [l0| |e|].
  - intros [= <- <-]. exists new. repeat split; auto.
    intros l [= <-]. cbn in Hpost. destruct Hpost as (_ & _ & Hfull & Hmax).
    cbn in Hmax. lia.
  - destruct Hpost.
  - destruct e; intros [= <- <-];
      try (exists new; split; [exact Htr|]; split; [exact Hfs|];
           split; [exact Hacq|]; intros l Hl; discriminate Hl).
    exists (new ++ [EvPrint ("Error: " +:+ message)]).
    split; [cbn; rewrite Htr, app_assoc; reflexivity|].
    split; [exact Hfs|].
    split; [|intros l Hl; discriminate Hl].
    apply Forall_app. split; [exact Hacq|]. repeat constructor.
  - intros [= <- <-]. exists new. split; [exact Htr|]. split; [exact Hfs|].
    split; [exact Hacq|]. intros l Hl; discriminate Hl.
Qed.

Lemma acquisition_writes_nothing (t : list Event) :
  Forall acquisition_event t -> gray_written t = [] /\ raw_written t = [].
Proof.
  induction 1 as [|e t He _ [IHg IHr]]; [split; reflexivity|].
  destruct He as [prompt r | e [url o | line]]; cbn; auto.
Qed.

Lemma Forall_prefix {A} (P : A -> Prop) (t l : list A) :
  t `prefix_of` l -> Forall P l -> Forall P t.
Proof. intros [k ->] H. apply Forall_app in H. tauto. Qed.

(** C7, as the claim has it, fails for a negative count: nothing is
    written, and zero files are more than the count asked for. *)
Lemma C7_counterexample_negative_count :
  let w' := (main Samples.env_ok 1 ["imageprocessing.py"; "-1"] Samples.w0).2 in
  PyStr.int "-1" = Some (-1) /\
  ~ Z.of_nat (length (gray_written (trace w'))) <= -1.
Proof. split; [reflexivity|]. vm_compute. intros H. apply H. reflexivity. Qed.

(** C7 (amended). Take a run of the driver with count [numimages], and
    any moment of it, that is any prefix [t] of the events the run adds.
    The grayscale files written up to that moment are at most
    [max numimages 0] (one write event each, so at most that many files),
    and each of them is [grayfile env i url] for an index [i] of the
    acquired list and the URL [url] at [i], while [imagefile env i url],
    the raw file of the same index and the same inferred extension, has
    been written up to that moment too. *)
Theorem C7_gray_files_paired (env : Env) (fuel : nat) (prog arg : string)
    (numimages : Z) (w w' : World) (res : Result unit) :
  PyStr.int arg = Some numimages ->
  main env fuel [prog; arg] w = (res, w') ->
  exists (new : list Event) (image_urls : list string),
    trace w' = trace w ++ new /\
    forall t, t `prefix_of` new ->
      Z.of_nat (length (gray_written t)) <= Z.max numimages 0 /\
      forall p, p ∈ gray_written t ->
        exists i url,
          image_urls !! i = Some url /\
          p = GSIMAGES_DIR env +:+ os_sep +:+ PyStr.str_nat (i + 1) +:+ (PyStr.splitext url).2 /\
          IMAGES_DIR env +:+ os_sep +:+ PyStr.str_nat (i + 1) +:+ (PyStr.splitext url).2
            ∈ raw_written t.
Proof.
  intros Harg. unfold main. cbn [lookup list_lookup].
  rewrite bind_run, mret_run, Harg, bind_run, mret_run, bind_run.
  destruct (generate_image_urls env fuel numimages w) as [r0 w0] eqn:Hgen.
  destruct (generate_image_urls_spec _ _ _ _ _ _ Hgen) as (new0 & Htr0 & _ & Hacq & Hlen).
  assert (Hquiet : forall t, t `prefix_of` new0 ->
            Z.of_nat (length (gray_written t)) <= Z.max numimages 0 /\
            forall p, p ∈ gray_written t ->
              exists i url,
                @nil string !! i = Some url /\
                p = GSIMAGES_DIR env +:+ os_sep +:+ PyStr.str_nat (i + 1) +:+ (PyStr.splitext url).2 /\
                IMAGES_DIR env +:+ os_sep +:+ PyStr.str_nat (i + 1) +:+ (PyStr.splitext url).2
                  ∈ raw_written t).
  { intros t Ht.
    destruct (acquisition_writes_nothing t (Forall_prefix _ _ _ Ht Hacq)) as [-> _].
    split; [cbn; lia|]. intros p Hp. inversion Hp. }
  destruct r0 as [image_urls| | |]; try (intros [= <- <-]; exists new0, []; auto).
  intros Hloop.
  destruct (main_loop_spec _ _ _ _ _ _ Hloop) as (new1 & Htr1 & Hpaired).
  exists (new0 ++ new1), image_urls.
  split; [rewrite Htr1, Htr0, app_assoc; reflexivity|].
  intros t Ht. apply prefix_app_cases' in Ht as [Ht | (t1 & -> & Ht1)].
  - destruct (acquisition_writes_nothing t (Forall_prefix _ _ _ Ht Hacq)) as [-> _].
    split; [cbn; lia|]. intros p Hp. inversion Hp.
  - destruct (acquisition_writes_nothing new0 Hacq) as [Hg Hr].
    rewrite gray_written_app, raw_written_app, Hg, Hr. cbn [app].
    destruct (Hpaired t1 Ht1) as [Hcount Hpair].
    specialize (Hlen image_urls eq_refl). rewrite length_seq in Hcount.
    split; [lia|].
    intros p Hp. destruct (Hpair p Hp) as (i & url & _ & Hi & -> & Hraw).
    exists i, url. auto.
Qed.

Lemma C7_witness :
  exists (new : list Event) (image_urls : list string),
    trace (main Samples.env_ok 1 ["imageprocessing.py"; "2"] Samples.w0).2 =
      trace Samples.w0 ++ new /\
    forall t, t `prefix_of` new ->
      Z.of_nat (length (gray_written t)) <= Z.max 2 0 /\
      forall p, p ∈ gray_written t ->
        exists i url,
          image_urls !! i = Some url /\
          p = GSIMAGES_DIR Samples.env_ok +:+ os_sep +:+ PyStr.str_nat (i + 1)
                +:+ (PyStr.splitext url).2 /\
          IMAGES_DIR Samples.env_ok +:+ os_sep +:+ PyStr.str_nat (i + 1)
            +:+ (PyStr.splitext url).2 ∈ raw_written t.
Proof.
  apply (C7_gray_files_paired Samples.env_ok 1 "imageprocessing.py" "2" 2
           Samples.w0 _ (main Samples.env_ok 1 ["imageprocessing.py"; "2"] Samples.w0).1).
  - reflexivity.
  - destruct (main Samples.env_ok 1 ["imageprocessing.py"; "2"] Samples.w0). reflexivity.
Defined.

(** C2, as the claim has it, fails for the top-level script: called with
    the argument [2] it asks the service for one URL and downloads one
    image, where the driver of [src/] asks for two and downloads two. *)
Lemma C2_counterexample_toplevel_ignores_argument :
  let argv := ["imageprocessing.py"; "2"] in
  PyStr.int "2" = Some 2 /\
  head (trace (Toplevel.main Samples.env_ok 1 argv Samples.w0).2) =
    Some (EvGenerate GENAI_MODEL (generation_prompt 1) (GenResponse (Some Samples.two_lines))) /\
  generation_prompt 1 <> generation_prompt 2 /\
  length (raw_written (trace (Toplevel.main Samples.env_ok 1 argv Samples.w0).2)) = 1%nat /\
  length (raw_written (trace (main Samples.env_ok 1 argv Samples.w0).2)) = 2%nat.
Proof.
  cbv zeta. split; [reflexivity|]. split; [reflexivity|].
  split; [vm_compute; discriminate|]. split; reflexivity.
Qed.

(** C2 (amended). The driver of [src/imageprocessing.py], called with one
    argument that reads as the integer [numimages], runs
    [generate_image_urls(numimages)] and then the loop over the list it
    returns, which has [max numimages 0] entries.  The driver of the
    top-level script does not read its arguments: it runs
    [generate_image_urls(1)]. *)
Theorem C2_driver_count (env : Env) (fuel : nat) (prog arg : string)
    (numimages : Z) (w : World) :
  PyStr.int arg = Some numimages ->
  main env fuel [prog; arg] w =
    (generate_image_urls env fuel numimages ≫= fun image_urls =>
     main_loop env image_urls (seq 0 (length image_urls))) w /\
  (forall image_urls w1,
      generate_image_urls env fuel numimages w = (Ret image_urls, w1) ->
      Z.of_nat (length image_urls) = Z.max numimages 0 /\
      main env fuel [prog; arg] w =
        main_loop env image_urls (seq 0 (length image_urls)) w1) /\
  (forall argv,
      Toplevel.main env fuel argv w =
        (generate_image_urls env fuel 1 ≫= fun image_urls =>
         Toplevel.main_loop env image_urls (seq 0 (length image_urls))) w).
Proof.
  intros Harg.
  assert (Hmain : main env fuel [prog; arg] w =
            (generate_image_urls env fuel numimages ≫= fun image_urls =>
             main_loop env image_urls (seq 0 (length image_urls))) w).
  { unfold main. cbn [lookup list_lookup].
    rewrite bind_run, mret_run, Harg, bind_run, mret_run. reflexivity. }
  split; [exact Hmain|]. split; [|reflexivity].
  intros image_urls w1 Hgen. split.
  - destruct (generate_image_urls_spec _ _ _ _ _ _ Hgen) as (new & _ & _ & _ & Hlen).
    now apply Hlen.
  - rewrite Hmain, bind_run, Hgen. reflexivity.
Qed.

Lemma C2_witness :
  main Samples.env_ok 1 ["imageprocessing.py"; "2"] Samples.w0 =
    (generate_image_urls Samples.env_ok 1 2 ≫= fun image_urls =>
     main_loop Samples.env_ok image_urls (seq 0 (length image_urls))) Samples.w0 /\
  Z.of_nat (length ["https://img.example.org/cat.png"; "https://img.example.org/dog.jpg"])
    = Z.max 2 0.
Proof.
  pose proof (C2_driver_count Samples.env_ok 1 "imageprocessing.py" "2" 2
                Samples.w0 eq_refl) as (Hmain & Hloop & _).
  split; [exact Hmain|].
  apply (Hloop _ (generate_image_urls Samples.env_ok 1 2 Samples.w0).2).
  vm_compute. reflexivity.
Defined.

Lemma C6_witness :
  exists w',
    is_accessible Samples.env_unreachable "not a url" Samples.w0 = (Ret false, w') /\
    trace w' = trace Samples.w0 ++
      [EvGet (check_request "not a url") (HttpRequestException "connection refused");
       EvPrint "Error accessing not a url: connection refused"] /\
    fs w' = fs Samples.w0 /\
    forall numimages candidate urls image_urls,
      PyStr.strip candidate = "not a url" ->
      Z.of_nat (length image_urls) <> numimages ->
      for_urls Samples.env_unreachable numimages (candidate :: urls) image_urls Samples.w0 =
      for_urls Samples.env_unreachable numimages urls image_urls w'.
Proof.
  apply (proj2 (C6_is_accessible_total Samples.env_unreachable "not a url" Samples.w0)
           "connection refused").
  left. reflexivity.
Defined.

Lemma C8_witness :
  generate_image_urls Samples.env_ok 5 0 Samples.w0 = (Ret [], Samples.w0).
Proof.
  apply (C8_no_request_for_nonpositive_count Samples.env_ok 5 0 Samples.w0). lia.
Defined.

(** ** File names: [os.path.splitext] on a URL *)

Section PyStrFacts.

Import PyStr.

Lemma mem_append (c : ascii) (a b : string) :
  mem c (a +:+ b) = mem c a || mem c b.
Proof.
  induction a as [|x a IH]; [reflexivity|]. simpl.
  destruct (decide (x = c)); [reflexivity | exact IH].
Qed.

Lemma rfind_go_append (c : ascii) (a b : string) :
  forall i found,
    rfind_go c (a +:+ b) i found =
    rfind_go c b (i + Z.of_nat (String.length a)) (rfind_go c a i found).
Proof.
  induction a as [|x a IH]; intros i found; simpl.
  - f_equal. lia.
  - rewrite IH. f_equal. lia.
Qed.

Lemma rfind_go_absent (c : ascii) (s : string) :
  forall i found, mem c s = false -> rfind_go c s i found = found.
Proof.
  induction s as [|x s IH]; intros i found; cbn; [reflexivity|].
  destruct (decide (x = c)); [discriminate|]. apply IH.
Qed.

Lemma rfind_go_range (c : ascii) (s : string) :
  forall i found,
    (mem c s = false /\ rfind_go c s i found = found) \/
    (mem c s = true /\ i <= rfind_go c s i found < i + Z.of_nat (String.length s)).
Proof.
  induction s as [|x s IH]; intros i found; cbn [mem rfind_go String.length].
  - left. auto.
  - destruct (IH (i + 1) (if decide (x = c) then i else found)) as [[Hm Hr] | [Hm Hr]].
    + rewrite Hr, Hm. destruct (decide (x = c)); [right | left]; split; auto; lia.
    + right. rewrite Hm. split; [destruct (decide (x = c)); reflexivity | lia].
Qed.

Lemma rfind_go_get (c : ascii) (s : string) :
  forall i found,
    mem c s = true ->
    String.get (Z.to_nat (rfind_go c s i found - i)) s = Some c.
Proof.
  induction s as [|x s IH]; intros i found; cbn [mem rfind_go]; [discriminate|].
  intros Hm.
  destruct (rfind_go_range c s (i + 1) (if decide (x = c) then i else found))
    as [[Hs Hr] | [Hs Hr]].
  - rewrite Hr, Hs in *. destruct (decide (x = c)) as [->|]; [|discriminate].
    rewrite Z.sub_diag. reflexivity.
  - specialize (IH (i + 1) (if decide (x = c) then i else found) Hs).
    set (r := rfind_go c s (i + 1) (if decide (x = c) then i else found)) in *.
    replace (Z.to_nat (r - i)) with (S (Z.to_nat (r - (i + 1)))) by lia.
    exact IH.
Qed.

Lemma get_mem (c : ascii) (s : string) :
  forall k, String.get k s = Some c -> mem c s = true.
Proof.
  induction s as [|x s IH]; intros k; cbn; [discriminate|].
  destruct k as [|k].
  - intros [= ->]. now rewrite decide_True.
  - intros H. destruct (decide (x = c)); [reflexivity | now apply (IH k)].
Qed.

Lemma mem_drop_get (c : ascii) (s : string) :
  forall k j, String.get k s = Some c -> (j <= k)%nat -> mem c (drop j s) = true.
Proof.
  induction s as [|x s IH]; intros k j; [discriminate|].
  destruct j as [|j].
  - intros H _. now apply (get_mem c _ k).
  - destruct k as [|k]; [lia|]. cbn. intros H Hjk. apply (IH k); [exact H | lia].
Qed.

Lemma scan_shift (a : ascii) (p : string) (n : nat) :
  forall k, splitext_scan (String a p) (S k) n = splitext_scan p k n.
Proof.
  induction n as [|n IH]; intros k; [reflexivity|].
  cbn [splitext_scan String.get]. rewrite IH. reflexivity.
Qed.

Lemma scan_stem (stem rest : string) :
  forall k, (k <= String.length stem)%nat ->
    splitext_scan (stem +:+ rest) k (String.length stem - k) =
    has_other "." (drop k stem).
Proof.
  induction stem as [|a stem IH]; intros k Hk.
  - cbn in Hk. replace k with 0%nat by lia. reflexivity.
  - destruct k as [|k].
    + change (String a stem +:+ rest) with (String a (stem +:+ rest)).
      cbn [String.length Nat.sub drop splitext_scan String.get has_other].
      destruct (decide (a = "."%char)); [|reflexivity].
      rewrite scan_shift. specialize (IH 0%nat ltac:(lia)).
      rewrite Nat.sub_0_r in IH. exact IH.
    + change (String a stem +:+ rest) with (String a (stem +:+ rest)).
      cbn [String.length Nat.sub drop].
      rewrite scan_shift. apply IH. cbn in Hk. lia.
Qed.

Lemma take_append (stem rest : string) :
  take (String.length stem) (stem +:+ rest) = stem.
Proof.
  induction stem as [|a stem IH]; simpl; [now destruct rest|].
  f_equal. exact IH.
Qed.

Lemma drop_append (stem rest : string) :
  drop (String.length stem) (stem +:+ rest) = rest.
Proof. induction stem as [|a stem IH]; simpl; [now destruct rest | exact IH]. Qed.

(** The shape [os.path.splitext] recognises: a stem whose file name
    has a character other than a dot, then a dot, then text with neither
    a dot nor a slash. *)
Lemma splitext_suffix (stem ext : string) :
  mem "." ext = false ->
  mem "/" ext = false ->
  has_other "." (basename stem) = true ->
  splitext (stem +:+ String "." ext) = (stem, String "." ext).
Proof.
  intros Hdot Hsep Hname. unfold splitext, basename in *.
  assert (Hd : rfind "." (stem +:+ String "." ext) = Z.of_nat (String.length stem)).
  { unfold rfind. rewrite rfind_go_append. cbn [rfind_go].
    rewrite decide_True by reflexivity. rewrite rfind_go_absent by exact Hdot. lia. }
  assert (Hs : rfind "/" (stem +:+ String "." ext) = rfind "/" stem).
  { unfold rfind. rewrite rfind_go_append. cbn [rfind_go].
    rewrite decide_False by discriminate. now rewrite rfind_go_absent. }
  rewrite Hd, Hs.
  assert (Hrange : -1 <= rfind "/" stem < Z.of_nat (String.length stem)).
  { unfold rfind. destruct (rfind_go_range "/" stem 0 (-1)) as [[_ ->] | [_ H]]; lia. }
  replace (Z.of_nat (String.length stem) >? rfind "/" stem) with true
    by (symmetry; apply Z.gtb_lt; lia).
  replace (Z.to_nat (Z.of_nat (String.length stem) - (rfind "/" stem + 1)))
    with (String.length stem - Z.to_nat (rfind "/" stem + 1))%nat by lia.
  rewrite scan_stem by lia. rewrite Hname.
  rewrite Nat2Z.id, take_append, drop_append. reflexivity.
Qed.

(** No dot after the last slash: no extension. *)
Lemma splitext_no_dot (p : string) :
  mem "." (basename p) = false -> splitext p = (p, "").
Proof.
  intros Hname. unfold splitext, basename in *.
  destruct (rfind "." p >? rfind "/" p) eqn:Hgt; [|reflexivity].
  apply Z.gtb_lt in Hgt. exfalso.
  assert (Hsep : -1 <= rfind "/" p).
  { unfold rfind. destruct (rfind_go_range "/" p 0 (-1)) as [[_ ->] | [_ H]]; lia. }
  unfold rfind in Hgt, Hsep.
  destruct (rfind_go_range "." p 0 (-1)) as [[_ Hr] | [Hm Hr]]; [lia|].
  pose proof (rfind_go_get "." p 0 (-1) Hm) as Hget. rewrite Z.sub_0_r in Hget.
  rewrite (mem_drop_get "." p _ _ Hget) in Hname; [discriminate|].
  unfold rfind. lia.
Qed.

End PyStrFacts.

(** A turn of the loop that downloads, decodes and encodes: the two
    files it writes. *)
Lemma turn_success (env : Env) (image_urls : list string) (i : nat)
    (indices : list nat) (url : string) (w : World)
    (resp : Response) (image : Mat) (data : bytes) :
  image_urls !! i = Some url ->
  requests_get env (trace w) (download_request url) = HttpResponse resp ->
  status_code resp = 200 ->
  imdecode env (content resp) = Some image ->
  imencode env (grayfile env i url) (cvtColor_BGR2GRAY env image) = Some data ->
  exists w1,
    main_loop env image_urls (i :: indices) w = main_loop env image_urls indices w1 /\
    trace w1 = trace w ++
      [EvGet (download_request url) (HttpResponse resp);
       EvMakedirs (PyStr.dirname (imagefile env i url));
       EvWrite (imagefile env i url) (content resp);
       EvMakedirs (PyStr.dirname (grayfile env i url));
       EvImwrite (grayfile env i url) data].
Proof.
  intros Hi Hget Hcode Hdec Henc.
  cbn [main_loop]. rewrite Hi, bind_run, mret_run, bind_run, download_image_run, Hget.
  apply Z.eqb_eq in Hcode. rewrite Hcode.
  rewrite bind_run, to_grayscale_run. cbn [fs files trace].
  rewrite lookup_insert_eq. cbn [mbind option_bind]. rewrite Hdec, Henc.
  eexists. split; [reflexivity|]. cbn [trace]. rewrite <- app_assoc. reflexivity.
Qed.

(** C10, as the claim has it, fails when the query holds a slash: the
    last dot then comes before the last slash, the inferred extension is
    empty, and the raw file is named by the bare index. *)
Lemma C10_counterexample_slash_in_query :
  let url := "https://img.example.org/cat.png?src=a/b" in
  url = "https://img.example.org/cat" +:+ "." +:+ "png" +:+ "?" +:+ "src=a/b" /\
  (PyStr.splitext url).2 = "" /\
  imagefile Samples.env_ok 0 url = "/srv/app/src/../images/1".
Proof. cbv zeta. split; [reflexivity|]. split; reflexivity. Qed.

(** C10 (amended). The raw file and the grayscale file of index [i] are
    named by [i + 1] followed by the second component of
    [os.path.splitext] of the whole URL string.  When the text after the
    last slash of the URL has no dot, that component is empty and both
    files are named by the bare index.  When the URL is a stem whose file
    name has a character other than a dot, then a dot and an extension,
    then [?] and a query, and neither the extension nor the query holds a
    dot or a slash, the component is the extension with the [?] and the
    whole query behind it. *)
Theorem C10_extension_is_splitext (env : Env) (i : nat) (url : string) :
  (forall image_urls indices w resp image data,
      image_urls !! i = Some url ->
      requests_get env (trace w) (download_request url) = HttpResponse resp ->
      status_code resp = 200 ->
      imdecode env (content resp) = Some image ->
      imencode env (grayfile env i url) (cvtColor_BGR2GRAY env image) = Some data ->
      exists w1,
        main_loop env image_urls (i :: indices) w = main_loop env image_urls indices w1 /\
        raw_written (drop (length (trace w)) (trace w1)) =
          [IMAGES_DIR env +:+ "/" +:+ PyStr.str_nat (i + 1) +:+ (PyStr.splitext url).2] /\
        gray_written (drop (length (trace w)) (trace w1)) =
          [GSIMAGES_DIR env +:+ "/" +:+ PyStr.str_nat (i + 1) +:+ (PyStr.splitext url).2]) /\
  (PyStr.mem "." (PyStr.basename url) = false ->
   (PyStr.splitext url).2 = "" /\
   imagefile env i url = IMAGES_DIR env +:+ "/" +:+ PyStr.str_nat (i + 1) /\
   grayfile env i url = GSIMAGES_DIR env +:+ "/" +:+ PyStr.str_nat (i + 1)) /\
  (forall stem ext query,
      url = stem +:+ "." +:+ ext +:+ "?" +:+ query ->
      PyStr.has_other "." (PyStr.basename stem) = true ->
      PyStr.mem "." ext = false -> PyStr.mem "/" ext = false ->
      PyStr.mem "." query = false -> PyStr.mem "/" query = false ->
      (PyStr.splitext url).2 = "." +:+ ext +:+ "?" +:+ query).
Proof.
  split; [|split].
  - intros image_urls indices w resp image data Hi Hget Hcode Hdec Henc.
    destruct (turn_success env image_urls i indices url w resp image data
                Hi Hget Hcode Hdec Henc) as (w1 & Hrun & Htr).
    exists w1. split; [exact Hrun|].
    rewrite Htr, drop_app_length. split; reflexivity.
  - intros Hname. pose proof (splitext_no_dot url Hname) as Hsplit.
    unfold imagefile, grayfile. rewrite Hsplit. cbn [snd].
    assert (Hnil : forall s : string, s +:+ "" = s).
    { induction s as [|a s IH]; [reflexivity|].
      change (String a s +:+ "") with (String a (s +:+ "")). f_equal. exact IH. }
    rewrite !Hnil. auto.
  - intros stem ext query -> Hname Hde Hse Hdq Hsq.
    assert (Hsplit : PyStr.splitext (stem +:+ String "." (ext +:+ "?" +:+ query)) =
                     (stem, String "." (ext +:+ "?" +:+ query))).
    { apply splitext_suffix; [| |exact Hname].
      - rewrite mem_append, Hde. simpl. exact Hdq.
      - rewrite mem_append, Hse. simpl. exact Hsq. }
    change (stem +:+ "." +:+ ext +:+ "?" +:+ query)
      with (stem +:+ String "." (ext +:+ "?" +:+ query)).
    rewrite Hsplit. reflexivity.
Qed.


(** ** The theorems at work on the sample worlds *)

Lemma C1_witness :
  (Z.of_nat (length ["https://img.example.org/cat.png"; "https://img.example.org/dog.jpg"]) = 2 /\
   exists new,
     trace (generate_image_urls Samples.env_ok 1 2 Samples.w0).2 = trace Samples.w0 ++ new /\
     fs (generate_image_urls Samples.env_ok 1 2 Samples.w0).2 = fs Samples.w0 /\
     ["https://img.example.org/cat.png"; "https://img.example.org/dog.jpg"] =
       omap accepted new /\
     forall url,
       url ∈ ["https://img.example.org/cat.png"; "https://img.example.org/dog.jpg"] ->
       exists r, EvGet (check_request url) (HttpResponse r) ∈ new /\ status_code r = 200) /\
  exists l w',
    generate_image_urls Samples.env_ok (Z.to_nat 2) 2 Samples.w0 = (Ret l, w').
Proof.
  pose proof (C1_acquisition_returns_checked_urls Samples.env_ok 2 Samples.w0
                ltac:(lia)) as [Hret Hlive].
  split.
  - apply (Hret 1%nat). vm_compute. reflexivity.
  - apply Hlive. exact productive_env_ok.
Defined.

Lemma C3_witness :
  (exists w',
     download_image Samples.env_404 Samples.dup_url "/srv/app/images/1.png" Samples.w0
       = (Exit 1, w') /\
     fs w' = fs Samples.w0 /\
     trace w' = trace Samples.w0 ++
       [EvGet (download_request Samples.dup_url) (Samples.answer 404);
        EvPrint ("Error while downloading image from " +:+ Samples.dup_url)]) /\
  (exists r,
     requests_get Samples.env_ok (trace Samples.w0) (download_request Samples.dup_url)
       = HttpResponse r /\
     status_code r = 200 /\
     (download_image Samples.env_ok Samples.dup_url "/srv/app/images/1.png" Samples.w0).1
       = Ret tt /\
     files (fs (download_image Samples.env_ok Samples.dup_url "/srv/app/images/1.png"
                  Samples.w0).2)
       = <["/srv/app/images/1.png" := content r]> (files (fs Samples.w0))).
Proof.
  split.
  - apply (proj1 (C3_download_image_non_200 Samples.env_404 Samples.dup_url
                    "/srv/app/images/1.png" Samples.w0)
             {| status_code := 404; content := [Byte.x89; Byte.x50] |}).
    + reflexivity.
    + cbn. lia.
  - apply (proj2 (C3_download_image_non_200 Samples.env_ok Samples.dup_url
                    "/srv/app/images/1.png" Samples.w0)).
    + reflexivity.
    + intros H.
      apply (f_equal (fun f => files f !! "/srv/app/images/1.png")) in H.
      vm_compute in H. discriminate H.
Defined.

Lemma C4_witness :
  let env := Samples.env_corrupt in
  let url := Samples.dup_url in
  let w1 := (download_image env url (imagefile env 0 url) Samples.w0).2 in
  to_grayscale env (imagefile env 0 url) (grayfile env 0 url) w1 =
    (Ret tt, emit (EvPrint ("Error: could not read " +:+ imagefile env 0 url)) w1) /\
  main_loop env [url] [0%nat] Samples.w0 =
    main_loop env [url] []
      (emit (EvPrint ("Error: could not read " +:+ imagefile env 0 url)) w1).
Proof.
  cbv zeta.
  pose proof (C4_to_grayscale_undecodable Samples.env_corrupt
                (imagefile Samples.env_corrupt 0 Samples.dup_url)
                (grayfile Samples.env_corrupt 0 Samples.dup_url)
                (download_image Samples.env_corrupt Samples.dup_url
                   (imagefile Samples.env_corrupt 0 Samples.dup_url) Samples.w0).2
                ltac:(vm_compute; reflexivity)) as (Hrun & _ & Hloop).
  split; [exact Hrun|].
  apply (Hloop [Samples.dup_url] 0%nat [] Samples.dup_url Samples.w0); reflexivity.
Defined.

Lemma C5_witness :
  (generate_image_urls Samples.env_server_error 1 1 Samples.w0).1 = Exit 1 /\
  ~ Z.of_nat (length ["https://img.example.org/cat.png"; "https://img.example.org/dog.jpg"]) < 2.
Proof.
  split.
  - apply (proj1 (C5_server_error_is_fatal Samples.env_server_error 1 1 Samples.w0
                    (generate_image_urls Samples.env_server_error 1 1 Samples.w0).2
                    (generate_image_urls Samples.env_server_error 1 1 Samples.w0).1
                    eq_refl)
             [EvGenerate GENAI_MODEL (generation_prompt 1)
                (GenServerError "503 UNAVAILABLE");
              EvPrint "Error: 503 UNAVAILABLE"]).
    + reflexivity.
    + left. reflexivity.
  - apply (proj2 (C5_server_error_is_fatal Samples.env_ok 1 2 Samples.w0
                    (generate_image_urls Samples.env_ok 1 2 Samples.w0).2
                    (generate_image_urls Samples.env_ok 1 2 Samples.w0).1
                    eq_refl)).
    vm_compute. reflexivity.
Defined.

Lemma C10_witness :
  (exists w1,
     main_loop Samples.env_ok ["https://img.example.org/cat.png"] [0%nat] Samples.w0 =
       main_loop Samples.env_ok ["https://img.example.org/cat.png"] [] w1 /\
     raw_written (drop (length (trace Samples.w0)) (trace w1)) =
       [IMAGES_DIR Samples.env_ok +:+ "/" +:+ PyStr.str_nat (0 + 1) +:+
        (PyStr.splitext "https://img.example.org/cat.png").2] /\
     gray_written (drop (length (trace Samples.w0)) (trace w1)) =
       [GSIMAGES_DIR Samples.env_ok +:+ "/" +:+ PyStr.str_nat (0 + 1) +:+
        (PyStr.splitext "https://img.example.org/cat.png").2]) /\
  ((PyStr.splitext "https://img.example.org/cat").2 = "" /\
   imagefile Samples.env_ok 4 "https://img.example.org/cat" =
     IMAGES_DIR Samples.env_ok +:+ "/" +:+ PyStr.str_nat (4 + 1) /\
   grayfile Samples.env_ok 4 "https://img.example.org/cat" =
     GSIMAGES_DIR Samples.env_ok +:+ "/" +:+ PyStr.str_nat (4 + 1)) /\
  (PyStr.splitext "https://img.example.org/cat.png?w=640").2 = ".png?w=640".
Proof.
  split; [|split].
  - apply (proj1 (C10_extension_is_splitext Samples.env_ok 0
                    "https://img.example.org/cat.png")
             ["https://img.example.org/cat.png"] [] Samples.w0
             {| status_code := 200; content := [Byte.x89; Byte.x50] |}
             Samples.bgr [Byte.x47]); reflexivity.
  - apply (proj1 (proj2 (C10_extension_is_splitext Samples.env_ok 4
                           "https://img.example.org/cat"))).
    reflexivity.
  - refine (proj2 (proj2 (C10_extension_is_splitext Samples.env_ok 0
                            "https://img.example.org/cat.png?w=640"))
              "https://img.example.org/cat" "png" "w=640" _ _ _ _ _ _);
      reflexivity.
Defined.

(** ** Further properties of the driver and of the two file operations *)



Lemma while_urls_done (env : Env) (fuel : nat) (numimages : Z)
    (image_urls : list string) (w : World) :
  ~ Z.of_nat (length image_urls) < numimages ->
  while_urls env fuel numimages image_urls w = (Ret image_urls, w).
Proof.
  intros Hfull. destruct fuel; cbn [while_urls];
    replace (Z.of_nat (length image_urls) <? numimages) with false
      by (symmetry; apply Z.ltb_ge; lia); reflexivity.
Qed.

(** X8. Called with a count of zero or less, the driver ends normally
    and leaves the world as it found it: no request, no message, no
    file, no directory. *)
Theorem main_nonpositive_count_is_noop (env : Env) (fuel : nat)
    (prog arg : string) (rest : list string) (numimages : Z) (w : World) :
  PyStr.int arg = Some numimages ->
  numimages <= 0 ->
  main env fuel (prog :: arg :: rest) w = (Ret tt, w).
Proof.
  intros Hint Hn. unfold main. cbn [lookup list_lookup].
  rewrite bind_run, mret_run, Hint, bind_run, mret_run, bind_run.
  rewrite generate_image_urls_run, while_urls_done by (cbn; lia).
  reflexivity.
Qed.

Lemma main_nonpositive_count_is_noop_witness :
  main Samples.env_ok 3 ["imageprocessing.py"; " -4 "] Samples.w0 = (Ret tt, Samples.w0).
Proof.
  apply (main_nonpositive_count_is_noop Samples.env_ok 3 "imageprocessing.py" " -4 "
           [] (-4) Samples.w0); [reflexivity | lia].
Defined.

(** X9. A download that fails ends the run at that index.  On a status
    other than 200 the loop prints the error line and exits with code 1;
    when the GET itself raises, the exception leaves the loop uncaught
    and nothing is printed.  In both cases the files are untouched and
    the remaining URLs are neither downloaded nor converted. *)
Theorem main_loop_download_failure (env : Env) (image_urls : list string)
    (i : nat) (indices : list nat) (url : string) (w : World) :
  image_urls !! i = Some url ->
  (forall r,
      requests_get env (trace w) (download_request url) = HttpResponse r ->
      status_code r <> 200 ->
      main_loop env image_urls (i :: indices) w =
        (Exit 1,
         {| trace := trace w ++
              [EvGet (download_request url) (HttpResponse r);
               EvPrint ("Error while downloading image from " +:+ url)];
            fs := fs w |})) /\
  (forall e,
      requests_get env (trace w) (download_request url) = HttpRequestException e ->
      main_loop env image_urls (i :: indices) w =
        (Raise (RequestException e),
         {| trace := trace w ++ [EvGet (download_request url) (HttpRequestException e)];
            fs := fs w |})).
Proof.
  intros Hi. split.
  - intros r Hget Hcode. cbn [main_loop].
    rewrite Hi, bind_run, mret_run, bind_run, download_image_run, Hget.
    apply Z.eqb_neq in Hcode. rewrite Hcode. reflexivity.
  - intros e Hget. cbn [main_loop].
    rewrite Hi, bind_run, mret_run, bind_run, download_image_run, Hget. reflexivity.
Qed.

Lemma main_loop_download_failure_witness :
  main_loop Samples.env_404 [Samples.dup_url; Samples.dup_url] [0%nat; 1%nat] Samples.w0 =
    (Exit 1,
     {| trace := trace Samples.w0 ++
          [EvGet (download_request Samples.dup_url) (Samples.answer 404);
           EvPrint ("Error while downloading image from " +:+ Samples.dup_url)];
        fs := fs Samples.w0 |}) /\
  main_loop Samples.env_unreachable [Samples.dup_url] [0%nat] Samples.w0 =
    (Raise (RequestException "connection refused"),
     {| trace := trace Samples.w0 ++
          [EvGet (download_request Samples.dup_url)
             (HttpRequestException "connection refused")];
        fs := fs Samples.w0 |}).
Proof.
  split.
  - apply (proj1 (main_loop_download_failure Samples.env_404
                    [Samples.dup_url; Samples.dup_url] 0 [1%nat] Samples.dup_url
                    Samples.w0 eq_refl)
             {| status_code := 404; content := [Byte.x89; Byte.x50] |}).
    + reflexivity.
    + cbn. lia.
  - apply (proj2 (main_loop_download_failure Samples.env_unreachable
                    [Samples.dup_url] 0 [] Samples.dup_url Samples.w0 eq_refl)).
    reflexivity.
Defined.





(** ** Further properties of the acquisition *)

(** Every run of the [while] loop is a derivation of [acquires]. *)
Lemma while_urls_acquires (env : Env) (numimages : Z) (fuel : nat) :
  forall (image_urls : list string) (w : World) r w',
    while_urls env fuel numimages image_urls w = (r, w') ->
    acquires env numimages image_urls w r w'.
Proof.
  induction fuel as [|fuel IH]; intros image_urls w r w'.
  - cbn [while_urls].
    destruct (Z.of_nat (length image_urls) <? numimages) eqn:Hlt; intros [= <- <-].
    + apply acquires_out_of_fuel. now apply Z.ltb_lt.
    + apply acquires_full. apply Z.ltb_ge in Hlt. lia.
  - cbn [while_urls].
    destruct (Z.of_nat (length image_urls) <? numimages) eqn:Hlt.
    2:{ intros [= <- <-]. apply acquires_full. apply Z.ltb_ge in Hlt. lia. }
    apply Z.ltb_lt in Hlt.
    rewrite bind_run, client_generate_content_run.
    destruct (generate_content env (trace w) GENAI_MODEL (generation_prompt numimages))
      as [t1|m|m] eqn:Ho1.
    2:{ intros [= <- <-]. rewrite <- Ho1.
        apply acquires_generation_raises; [exact Hlt | now rewrite Ho1]. }
    2:{ intros [= <- <-]. rewrite <- Ho1.
        apply acquires_generation_raises; [exact Hlt | now rewrite Ho1]. }
    rewrite bind_run, client_generate_content_run.
    set (w1 := emit (EvGenerate GENAI_MODEL (generation_prompt numimages) (GenResponse t1)) w).
    destruct (generate_content env (trace w1) GENAI_MODEL (extraction_prompt t1))
      as [[text|]|m|m] eqn:Ho2.
    2:{ rewrite bind_run. intros [= <- <-]. rewrite <- Ho2.
        eapply acquires_extraction_raises; eauto. now rewrite Ho2. }
    2:{ intros [= <- <-]. rewrite <- Ho2.
        eapply acquires_extraction_raises; eauto. now rewrite Ho2. }
    2:{ intros [= <- <-]. rewrite <- Ho2.
        eapply acquires_extraction_raises; eauto. now rewrite Ho2. }
    rewrite bind_run, mret_run, bind_run.
    destruct (for_urls_spec env numimages (PyStr.split "010" (PyStr.strip text))
                image_urls
                (emit (EvGenerate GENAI_MODEL (extraction_prompt t1)
                         (GenResponse (Some text))) w1))
      as (l1 & w3 & new3 & Hrun & _).
    rewrite Hrun. intros Hrest.
    eapply acquires_round; eauto.
Qed.

(** The URLs a batch checks are its lines, trimmed. *)
Lemma for_urls_checks_lines (env : Env) (numimages : Z) (urls : list string) :
  forall (image_urls l : list string) (w w' : World) new,
    for_urls env numimages urls image_urls w = (Ret l, w') ->
    trace w' = trace w ++ new ->
    forall req o, EvGet req o ∈ new ->
      exists line, line ∈ urls /\ req = check_request (PyStr.strip line).
Proof.
  induction urls as [|url urls IH]; intros image_urls l w w' new.
  - cbn. intros [= <- <-] Hnew req o Hin.
    rewrite <- (app_nil_r (trace w)) in Hnew at 1. apply app_inv_head in Hnew. subst new.
    inversion Hin.
  - cbn [for_urls]. rewrite bind_run, is_accessible_run.
    set (u := PyStr.strip url).
    assert (Hhere : forall req o new1,
              Forall (fun e => forall req o, e = EvGet req o -> req = check_request u) new1 ->
              EvGet req o ∈ new1 ->
              exists line, line ∈ url :: urls /\ req = check_request (PyStr.strip line)).
    { intros req o new1 Hall Hin. rewrite Forall_forall in Hall.
      exists url. split; [left|]. exact (Hall _ Hin req o eq_refl). }
    assert (Hstep : forall b w1 new1,
              trace w1 = trace w ++ new1 ->
              Forall (fun e => forall req o, e = EvGet req o -> req = check_request u) new1 ->
              (if Z.of_nat (length (if b : bool then image_urls ++ [u] else image_urls))
                    =? numimages
               then mret (if b then image_urls ++ [u] else image_urls)
               else for_urls env numimages urls
                      (if b then image_urls ++ [u] else image_urls)) w1 = (Ret l, w') ->
              trace w' = trace w ++ new ->
              forall req o, EvGet req o ∈ new ->
                exists line, line ∈ url :: urls /\ req = check_request (PyStr.strip line)).
    { intros b w1 new1 Htr1 Hall Hrun Hnew req o Hin.
      destruct (Z.of_nat (length (if b then image_urls ++ [u] else image_urls)) =? numimages).
      - injection Hrun as <- <-. rewrite Htr1 in Hnew. apply app_inv_head in Hnew.
        subst new. eauto.
      - destruct (for_urls_spec env numimages urls
                    (if b then image_urls ++ [u] else image_urls) w1)
          as (l' & w'' & new2 & Hrun' & Htr2 & _).
        rewrite Hrun in Hrun'. injection Hrun' as <- <-.
        rewrite Htr2, Htr1, <- app_assoc in Hnew. apply app_inv_head in Hnew. subst new.
        apply elem_of_app in Hin as [Hin | Hin]; [eauto|].
        destruct (IH _ _ _ _ new2 Hrun Htr2 req o Hin) as (line & Hline & ->).
        exists line. split; [now right | reflexivity]. }
    destruct (requests_get env (trace w) (check_request u)) as [r|e|e]; intros Hrun Hnew.
    + eapply (Hstep (status_code r =? 200)); [| |exact Hrun|exact Hnew]; [reflexivity|].
      repeat constructor. now intros req o [= <- _].
    + eapply (Hstep false); [| |exact Hrun|exact Hnew].
      * cbn. rewrite <- app_assoc. reflexivity.
      * repeat constructor; [now intros req o [= <- _] | intros req o; discriminate].
    + eapply (Hstep false); [| |exact Hrun|exact Hnew].
      * cbn. rewrite <- app_assoc. reflexivity.
      * repeat constructor; [now intros req o [= <- _] | intros req o; discriminate].
Qed.

Lemma acquires_extends (env : Env) (numimages : Z) (image_urls : list string)
    (w : World) r (w' : World) :
  acquires env numimages image_urls w r w' ->
  exists new, trace w' = trace w ++ new.
Proof.
  induction 1 as [acc w Hfull | acc w Hlt | acc w e Hlt Herr
                 | acc w t1 w1 e Hlt Ho1 Hw1 Herr
                 | acc w t1 w1 text w2 l1 w3 r w' Hlt Ho1 Hw1 Ho2 Hw2 Hfor _ IH].
  - exists []. now rewrite app_nil_r.
  - exists []. now rewrite app_nil_r.
  - eexists. reflexivity.
  - subst w1. eexists. cbn. rewrite <- app_assoc. reflexivity.
  - destruct IH as (new & Hnew).
    destruct (for_urls_spec env numimages (PyStr.split "010" (PyStr.strip text)) acc w2)
      as (l & w'' & new3 & Hrun & Htr & _).
    rewrite Hfor in Hrun. injection Hrun as <- <-.
    subst w2 w1. eexists. rewrite Hnew, Htr. cbn. rewrite <- !app_assoc. reflexivity.
Qed.

Lemma gen_calls_app (a b : list Event) : gen_calls (a ++ b) = gen_calls a ++ gen_calls b.
Proof. apply omap_app. Qed.

Lemma gen_calls_checks (t : list Event) : Forall check_event t -> gen_calls t = [].
Proof.
  induction 1 as [|e t He _ IH]; [reflexivity|].
  destruct He; cbn; exact IH.
Qed.

(** The events of one round that goes on: the two calls, then the
    checks of the batch, then what the later rounds add. *)
Lemma round_trace (env : Env) (numimages : Z) (image_urls : list string)
    (w w1 w2 w3 w' : World) (t1 : option string) (text : string)
    (l1 : list string) r (new : list Event) :
  w1 = emit (EvGenerate GENAI_MODEL (generation_prompt numimages) (GenResponse t1)) w ->
  w2 = emit (EvGenerate GENAI_MODEL (extraction_prompt t1) (GenResponse (Some text))) w1 ->
  for_urls env numimages (PyStr.split "010" (PyStr.strip text)) image_urls w2 = (Ret l1, w3) ->
  acquires env numimages l1 w3 r w' ->
  trace w' = trace w ++ new ->
  exists new3 new',
    new = [EvGenerate GENAI_MODEL (generation_prompt numimages) (GenResponse t1);
           EvGenerate GENAI_MODEL (extraction_prompt t1) (GenResponse (Some text))]
          ++ new3 ++ new' /\
    trace w3 = trace w2 ++ new3 /\ trace w' = trace w3 ++ new' /\
    Forall check_event new3.
Proof.
  intros -> -> Hfor Hacq Hnew.
  destruct (for_urls_spec env numimages (PyStr.split "010" (PyStr.strip text)) image_urls
              (emit (EvGenerate GENAI_MODEL (extraction_prompt t1) (GenResponse (Some text)))
                 (emit (EvGenerate GENAI_MODEL (generation_prompt numimages)
                          (GenResponse t1)) w)))
    as (l & w'' & new3 & Hrun & Htr & _ & Hchk & _).
  rewrite Hfor in Hrun. injection Hrun as <- <-.
  destruct (acquires_extends _ _ _ _ _ _ Hacq) as (new' & Hnew').
  exists new3, new'. split; [|auto].
  rewrite Hnew', Htr in Hnew. cbn in Hnew. rewrite <- !app_assoc in Hnew.
  apply app_inv_head in Hnew. symmetry. exact Hnew.
Qed.

(** X1. Whatever its outcome, [generate_image_urls] leaves files and
    directories alone, and all it does is call the text service with
    the configured model, send reachability GETs (5 second timeout, no
    headers) and print: it downloads nothing and writes nothing. *)
Theorem acquisition_effects (env : Env) (fuel : nat) (numimages : Z)
    (w w' : World) (r : Result (list string)) :
  generate_image_urls env fuel numimages w = (r, w') ->
  fs w' = fs w /\
  exists new,
    trace w' = trace w ++ new /\
    Forall acquisition_event new /\
    writes new = [] /\
    forall req o, EvGet req o ∈ new ->
      req_headers req = [] /\ req_timeout req = Some 5.
Proof.
  intros Hrun.
  destruct (generate_image_urls_spec _ _ _ _ _ _ Hrun) as (new & Htr & Hfs & Hacq & _).
  split; [exact Hfs|]. exists new. split; [exact Htr|]. split; [exact Hacq|]. split.
  - clear Htr. induction Hacq as [|e t He _ IH]; [reflexivity|].
    destruct He as [prompt o | e [url o | line]]; cbn; exact IH.
  - intros req o Hin. rewrite Forall_forall in Hacq. specialize (Hacq _ Hin).
    inversion Hacq as [|e Hchk]; subst. inversion Hchk; subst. split; reflexivity.
Qed.

Lemma acquisition_effects_witness :
  fs (generate_image_urls Samples.env_unreachable 2 1 MoreSamples.w_files).2 =
    fs MoreSamples.w_files.
Proof.
  refine (proj1 (acquisition_effects Samples.env_unreachable 2 1 MoreSamples.w_files
                   _ (generate_image_urls Samples.env_unreachable 2 1
                        MoreSamples.w_files).1 _)).
  destruct (generate_image_urls Samples.env_unreachable 2 1 MoreSamples.w_files).
  reflexivity.
Defined.




Lemma acquires_rounds (env : Env) (numimages : Z) (image_urls : list string)
    (w : World) r (w' : World) :
  acquires env numimages image_urls w r w' ->
  forall new, trace w' = trace w ++ new -> well_paired numimages (gen_calls new).
Proof.
  induction 1 as [acc w Hfull | acc w Hlt | acc w e Hlt Herr
                 | acc w t1 w1 e Hlt Ho1 Hw1 Herr
                 | acc w t1 w1 text w2 l1 w3 r w' Hlt Ho1 Hw1 Ho2 Hw2 Hfor Hacq IH];
    intros new Hnew.
  - rewrite <- (app_nil_r (trace w)) in Hnew at 1. apply app_inv_head in Hnew.
    subst new. exact I.
  - rewrite <- (app_nil_r (trace w)) in Hnew at 1. apply app_inv_head in Hnew.
    subst new. exact I.
  - cbn in Hnew. apply app_inv_head in Hnew. subst new. cbn.
    split; [reflexivity|]. intros t Ht. rewrite Ht in Herr. discriminate.
  - subst w1. cbn in Hnew. rewrite <- app_assoc in Hnew. apply app_inv_head in Hnew.
    subst new. cbn. split; [reflexivity|]. exists t1. auto.
  - destruct (round_trace _ _ _ _ _ _ _ _ _ _ _ _ _ Hw1 Hw2 Hfor Hacq Hnew)
      as (new3 & new' & -> & _ & Hnew' & Hchk).
    rewrite gen_calls_app. cbn. rewrite gen_calls_app, (gen_calls_checks _ Hchk). cbn.
    split; [reflexivity|]. exists t1. repeat split; eauto.
Qed.

(** X3. The calls of the text service come in rounds.  Each round asks
    for [numimages] URLs, the full count and not the number still
    missing, and, when that is answered, sends an extraction prompt made
    of the answer (of ["None"] when the answer has no text); a further
    round starts only after an extraction answer with a text.  A print
    after a [ServerError] apart, nothing else is asked of the service. *)
Theorem generation_calls_in_rounds (env : Env) (fuel : nat) (numimages : Z)
    (w w' : World) (r : Result (list string)) (new : list Event) :
  generate_image_urls env fuel numimages w = (r, w') ->
  trace w' = trace w ++ new ->
  well_paired numimages (gen_calls new).
Proof.
  rewrite generate_image_urls_run.
  destruct (while_urls env fuel numimages [] w) as [r0 w0] eqn:Hw.
  pose proof (while_urls_acquires _ _ _ _ _ _ _ Hw) as Hacq.
  destruct (acquires_extends _ _ _ _ _ _ Hacq) as (new0 & Hnew0).
  pose proof (acquires_rounds _ _ _ _ _ _ Hacq new0 Hnew0) as Hrounds.
  assert (Hsame : forall w1, (r, w') = (r0, w1) -> w1 = w0 ->
            trace w' = trace w ++ new -> well_paired numimages (gen_calls new)).
  { intros w1 [= -> ->] -> Hnew. rewrite Hnew0 in Hnew. apply app_inv_head in Hnew.
    now subst new. }
  destruct r0 as [l|c|e|]; try (intros Heq; now apply (Hsame w0)).
  destruct e; try (intros Heq; now apply (Hsame w0)).
  intros [= <- <-] Hnew. cbn in Hnew. rewrite Hnew0, <- app_assoc in Hnew.
  apply app_inv_head in Hnew. subst new. rewrite gen_calls_app. cbn.
  now rewrite app_nil_r.
Qed.

Lemma generation_calls_in_rounds_witness :
  well_paired 3
    (gen_calls (trace (generate_image_urls Samples.env_ok 5 3 Samples.w0).2)).
Proof.
  refine (generation_calls_in_rounds Samples.env_ok 5 3 Samples.w0
            (generate_image_urls Samples.env_ok 5 3 Samples.w0).2
            (generate_image_urls Samples.env_ok 5 3 Samples.w0).1
            (trace (generate_image_urls Samples.env_ok 5 3 Samples.w0).2) _ _).
  - destruct (generate_image_urls Samples.env_ok 5 3 Samples.w0). reflexivity.
  - reflexivity.
Defined.

(** A batch that fills the list ends with the check that accepted the
    last URL. *)
Lemma for_urls_full_last (env : Env) (numimages : Z) (urls : list string) :
  forall (image_urls l : list string) (w w' : World),
    Z.of_nat (length image_urls) < numimages ->
    for_urls env numimages urls image_urls w = (Ret l, w') ->
    Z.of_nat (length l) = numimages ->
    exists url resp,
      last (trace w') = Some (EvGet (check_request url) (HttpResponse resp)) /\
      status_code resp = 200 /\ last l = Some url.
Proof.
  induction urls as [|url urls IH]; intros image_urls l w w' Hlt.
  - cbn. intros [= <- <-] Hlen. lia.
  - cbn [for_urls]. rewrite bind_run, is_accessible_run.
    set (u := PyStr.strip url).
    assert (Hskip : forall w1,
              (if Z.of_nat (length image_urls) =? numimages then mret image_urls
               else for_urls env numimages urls image_urls) w1 = (Ret l, w') ->
              Z.of_nat (length l) = numimages ->
              exists url resp,
                last (trace w') = Some (EvGet (check_request url) (HttpResponse resp)) /\
                status_code resp = 200 /\ last l = Some url).
    { intros w1. replace (Z.of_nat (length image_urls) =? numimages) with false
        by (symmetry; apply Z.eqb_neq; lia).
      now apply IH. }
    destruct (requests_get env (trace w) (check_request u)) as [resp|e|e];
      [|exact (Hskip _)|exact (Hskip _)].
    destruct (status_code resp =? 200) eqn:Hcode; [|exact (Hskip _)].
    destruct (Z.of_nat (length (image_urls ++ [u])) =? numimages) eqn:Hbreak.
    + intros [= <- <-] _. exists u, resp.
      split; [apply last_snoc|]. split; [now apply Z.eqb_eq | apply last_snoc].
    + apply IH. apply Z.eqb_neq in Hbreak. rewrite length_app in *. cbn in *. lia.
Qed.

Lemma acquires_full_inv (env : Env) (numimages : Z) (image_urls l : list string)
    (w w' : World) :
  acquires env numimages image_urls w (Ret l) w' ->
  ~ Z.of_nat (length image_urls) < numimages ->
  l = image_urls /\ w' = w.
Proof. inversion 1; subst; intros Hfull; [auto | contradiction]. Qed.

Lemma acquires_full_last (env : Env) (numimages : Z) (image_urls : list string)
    (w : World) r (w' : World) :
  acquires env numimages image_urls w r w' ->
  forall l, r = Ret l ->
    Z.of_nat (length image_urls) < numimages ->
    exists url resp,
      last (trace w') = Some (EvGet (check_request url) (HttpResponse resp)) /\
      status_code resp = 200 /\ last l = Some url.
Proof.
  induction 1 as [acc w Hfull | acc w Hlt | acc w e Hlt Herr
                 | acc w t1 w1 e Hlt Ho1 Hw1 Herr
                 | acc w t1 w1 text w2 l1 w3 r w' Hlt Ho1 Hw1 Ho2 Hw2 Hfor Hacq IH];
    intros l Hr Hlt'; try discriminate.
  - injection Hr as <-. contradiction.
  - destruct (for_urls_spec env numimages (PyStr.split "010" (PyStr.strip text)) acc w2)
      as (l' & w'' & new3 & Hrun & _ & _ & _ & _ & _ & Hbound).
    rewrite Hfor in Hrun. injection Hrun as <- <-. specialize (Hbound Hlt).
    destruct (Z.lt_ge_cases (Z.of_nat (length l1)) numimages) as [Hmore | Hfull].
    + now apply IH.
    + subst r. destruct (acquires_full_inv _ _ _ _ _ _ Hacq ltac:(lia)) as [-> ->].
      apply (for_urls_full_last env numimages _ acc l1 w2 w3 Hlt Hfor). lia.
Qed.

(** X4. For a count of at least one, the event that ends a returning
    [generate_image_urls] is the reachability GET, answered 200, of the
    last URL of the list: once the list is full there is no further
    check and no further call of the text service. *)
Theorem acquisition_stops_when_full (env : Env) (fuel : nat) (numimages : Z)
    (w w' : World) (l : list string) :
  1 <= numimages ->
  generate_image_urls env fuel numimages w = (Ret l, w') ->
  exists url resp,
    last (trace w') = Some (EvGet (check_request url) (HttpResponse resp)) /\
    status_code resp = 200 /\ last l = Some url.
Proof.
  intros Hn. rewrite generate_image_urls_run.
  destruct (while_urls env fuel numimages [] w) as [r0 w0] eqn:Hw.
  pose proof (while_urls_acquires _ _ _ _ _ _ _ Hw) as Hacq.
  destruct r0 as [l0| |[]|]; intros [= <- <-].
  apply (acquires_full_last _ _ _ _ _ _ Hacq l0 eq_refl). cbn. lia.
Qed.

Lemma acquisition_stops_when_full_witness :
  exists url resp,
    last (trace (generate_image_urls Samples.env_ok 5 1 Samples.w0).2) =
      Some (EvGet (check_request url) (HttpResponse resp)) /\
    status_code resp = 200 /\
    last ["https://img.example.org/cat.png"] = Some url.
Proof.
  apply (acquisition_stops_when_full Samples.env_ok 5 1 Samples.w0); [lia|].
  vm_compute. reflexivity.
Defined.

(** X5. The [break]: when a batch fills the list, the lines after the
    one that filled it are not read; whatever follows them in the batch,
    the loop does the same and ends in the same world. *)
Theorem for_urls_ignores_rest (env : Env) (numimages : Z) (urls : list string) :
  forall (extra image_urls l : list string) (w w' : World),
    Z.of_nat (length image_urls) < numimages ->
    for_urls env numimages urls image_urls w = (Ret l, w') ->
    Z.of_nat (length l) = numimages ->
    for_urls env numimages (urls ++ extra) image_urls w = (Ret l, w').
Proof.
  induction urls as [|url urls IH]; intros extra image_urls l w w' Hlt.
  - cbn. intros [= <- <-] Hlen. lia.
  - cbn [for_urls app]. rewrite !bind_run.
    destruct (is_accessible_spec env (PyStr.strip url) w)
      as (b & w1 & new1 & Hrun & _ & _ & _ & _ & _).
    rewrite Hrun.
    set (l1 := if b then image_urls ++ [PyStr.strip url] else image_urls).
    destruct (Z.of_nat (length l1) =? numimages) eqn:Hbreak; [auto|].
    apply IH. apply Z.eqb_neq in Hbreak. subst l1.
    destruct b; [rewrite length_app in *; cbn in *|]; lia.
Qed.

Lemma for_urls_ignores_rest_witness :
  for_urls Samples.env_ok 1
    (["https://img.example.org/cat.png"] ++ ["https://img.example.org/dog.jpg"])
    [] Samples.w0 =
  for_urls Samples.env_ok 1 ["https://img.example.org/cat.png"] [] Samples.w0.
Proof.
  rewrite (for_urls_ignores_rest Samples.env_ok 1 ["https://img.example.org/cat.png"]
             ["https://img.example.org/dog.jpg"] [] ["https://img.example.org/cat.png"]
             Samples.w0
             (for_urls Samples.env_ok 1 ["https://img.example.org/cat.png"] []
                Samples.w0).2);
    [reflexivity | cbn; lia | reflexivity | reflexivity].
Defined.

Section LineFacts.

Import PyStr.

Lemma split_no_sep (c : ascii) (s : string) :
  forall line, line ∈ split c s -> mem c line = false.
Proof.
  induction s as [|a s IH]; intros line; cbn [split].
  - intros Hin. apply list_elem_of_singleton in Hin as ->. reflexivity.
  - destruct (decide (a = c)) as [Heq | Hne].
    + intros Hin. apply elem_of_cons in Hin as [-> | Hin]; [reflexivity | now apply IH].
    + destruct (split c s) as [|h t] eqn:Hs.
      * intros Hin. apply list_elem_of_singleton in Hin as ->. cbn.
        now rewrite decide_False.
      * intros Hin. apply elem_of_cons in Hin as [-> | Hin].
        -- cbn. rewrite decide_False by exact Hne. apply IH. left.
        -- apply IH. now right.
Qed.

Lemma mem_lstrip (c : ascii) (s : string) :
  mem c (lstrip s) = true -> mem c s = true.
Proof.
  induction s as [|a s IH]; cbn; [discriminate|].
  destruct (isspace a); [|auto].
  intros H. destruct (decide (a = c)); [reflexivity | now apply IH].
Qed.

Lemma mem_rev_app (c : ascii) (s : string) :
  forall acc, mem c (String.rev_app s acc) = mem c s || mem c acc.
Proof.
  induction s as [|a s IH]; intros acc; cbn; [reflexivity|].
  rewrite IH. cbn. destruct (decide (a = c)); [apply orb_true_r | reflexivity].
Qed.

Lemma mem_rev (c : ascii) (s : string) : mem c (String.rev s) = mem c s.
Proof. unfold String.rev. rewrite mem_rev_app. cbn. apply orb_false_r. Qed.

Lemma mem_strip (c : ascii) (s : string) :
  mem c (strip s) = true -> mem c s = true.
Proof.
  unfold strip, rstrip. rewrite mem_rev. intros H.
  apply mem_lstrip in H. rewrite mem_rev in H. now apply mem_lstrip.
Qed.

Lemma strip_line_no_newline (text line : string) :
  line ∈ split "010" text -> mem "010" (strip line) = false.
Proof.
  intros Hin. destruct (mem "010" (strip line)) eqn:Hm; [|reflexivity].
  apply mem_strip in Hm. rewrite (split_no_sep _ _ _ Hin) in Hm. discriminate.
Qed.

End LineFacts.

Lemma acquires_checks_lines (env : Env) (numimages : Z) (image_urls : list string)
    (w : World) r (w' : World) :
  acquires env numimages image_urls w r w' ->
  forall new, trace w' = trace w ++ new ->
    forall req o, EvGet req o ∈ new ->
      exists t text line,
        EvGenerate GENAI_MODEL (extraction_prompt t) (GenResponse (Some text)) ∈ new /\
        line ∈ PyStr.split "010" (PyStr.strip text) /\
        req = check_request (PyStr.strip line).
Proof.
  induction 1 as [acc w Hfull | acc w Hlt | acc w e Hlt Herr
                 | acc w t1 w1 e Hlt Ho1 Hw1 Herr
                 | acc w t1 w1 text w2 l1 w3 r w' Hlt Ho1 Hw1 Ho2 Hw2 Hfor Hacq IH];
    intros new Hnew req o Hin.
  - rewrite <- (app_nil_r (trace w)) in Hnew at 1. apply app_inv_head in Hnew.
    subst new. inversion Hin.
  - rewrite <- (app_nil_r (trace w)) in Hnew at 1. apply app_inv_head in Hnew.
    subst new. inversion Hin.
  - cbn in Hnew. apply app_inv_head in Hnew. subst new.
    apply list_elem_of_singleton in Hin. discriminate.
  - subst w1. cbn in Hnew. rewrite <- app_assoc in Hnew. apply app_inv_head in Hnew.
    subst new. cbn in Hin.
    apply elem_of_cons in Hin as [Hin | Hin]; [discriminate|].
    apply list_elem_of_singleton in Hin. discriminate.
  - destruct (round_trace _ _ _ _ _ _ _ _ _ _ _ _ _ Hw1 Hw2 Hfor Hacq Hnew)
      as (new3 & new' & -> & Htr3 & Hnew' & _).
    cbn in Hin.
    apply elem_of_cons in Hin as [Hin | Hin]; [discriminate|].
    apply elem_of_cons in Hin as [Hin | Hin]; [discriminate|].
    apply elem_of_app in Hin as [Hin | Hin].
    + destruct (for_urls_checks_lines _ _ _ _ _ _ _ _ Hfor Htr3 req o Hin)
        as (line & Hline & ->).
      exists t1, text, line. split; [|auto]. cbn. right. left.
    + destruct (IH new' Hnew' req o Hin) as (t & text' & line & Hev & Hline & ->).
      exists t, text', line. split; [|auto]. cbn. right. right.
      apply elem_of_app. now right.
Qed.

(** X6. Every URL [generate_image_urls] returns is a line of the text
    of one of this call's extraction answers (the text trimmed and split
    at newlines), itself trimmed; so it holds no newline. *)
Theorem accepted_urls_are_trimmed_lines (env : Env) (fuel : nat) (numimages : Z)
    (w w' : World) (urls : list string) (events : list Event) :
  generate_image_urls env fuel numimages w = (Ret urls, w') ->
  trace w' = trace w ++ events ->
  forall url, url ∈ urls ->
    PyStr.mem "010" url = false /\
    exists t text line,
      EvGenerate GENAI_MODEL (extraction_prompt t) (GenResponse (Some text)) ∈ events /\
      line ∈ PyStr.split "010" (PyStr.strip text) /\
      url = PyStr.strip line.
Proof.
  rewrite generate_image_urls_run.
  destruct (while_urls env fuel numimages [] w) as [r0 w0] eqn:Hw.
  pose proof (while_urls_acquires _ _ _ _ _ _ _ Hw) as Hacq.
  destruct (while_urls_spec _ _ _ _ _ _ _ Hw) as (new0 & Htr & _ & _ & Hpost).
  destruct r0 as [l0| |[]|]; intros [= <- <-] Hnew url Hin.
  rewrite Htr in Hnew. apply app_inv_head in Hnew. subst new0.
  cbn in Hpost. destruct Hpost as (Hl & _). cbn in Hl. rewrite Hl in Hin.
  apply list_elem_of_omap in Hin as (e & He & Hacc).
  destruct e as [| req [resp| |] | | | |]; try discriminate. cbn in Hacc.
  destruct (status_code resp =? 200); [|discriminate]. injection Hacc as <-.
  destruct (acquires_checks_lines _ _ _ _ _ _ Hacq events Htr _ _ He)
    as (t & text & line & Hev & Hline & ->).
  cbn. split; [exact (strip_line_no_newline _ _ Hline)|].
  exists t, text, line. auto.
Qed.

Lemma accepted_urls_are_trimmed_lines_witness :
  PyStr.mem "010" "https://img.example.org/dog.jpg" = false /\
  exists t text line,
    EvGenerate GENAI_MODEL (extraction_prompt t) (GenResponse (Some text))
      ∈ trace (generate_image_urls Samples.env_ok 5 2 Samples.w0).2 /\
    line ∈ PyStr.split "010" (PyStr.strip text) /\
    "https://img.example.org/dog.jpg" = PyStr.strip line.
Proof.
  apply (accepted_urls_are_trimmed_lines Samples.env_ok 5 2 Samples.w0
           (generate_image_urls Samples.env_ok 5 2 Samples.w0).2
           ["https://img.example.org/cat.png"; "https://img.example.org/dog.jpg"]
           (trace (generate_image_urls Samples.env_ok 5 2 Samples.w0).2)).
  - vm_compute. reflexivity.
  - reflexivity.
  - right. left.
Defined.

(** ** File names and file contents *)

Section NameFacts.

Import PyStr.

Lemma append_assoc (a b c : string) : (a +:+ b) +:+ c = a +:+ (b +:+ c).
Proof.
  induction a as [|x a IH]; [reflexivity|].
  change ((String x a +:+ b) +:+ c) with (String x ((a +:+ b) +:+ c)).
  change (String x a +:+ (b +:+ c)) with (String x (a +:+ (b +:+ c))).
  now rewrite IH.
Qed.

Lemma rev_app_append (a b : string) :
  forall acc, String.rev_app (a +:+ b) acc = String.rev_app b (String.rev_app a acc).
Proof.
  induction a as [|x a IH]; intros acc; [reflexivity|].
  change (String x a +:+ b) with (String x (a +:+ b)). cbn. apply IH.
Qed.

Lemma join2_after_dotdot (y b : string) :
  (forall r, b <> String "/" r) ->
  join2 (y +:+ "..") b = (y +:+ "..") +:+ "/" +:+ b.
Proof.
  intros Hb. unfold join2.
  unfold String.rev. rewrite rev_app_append. cbn [String.rev_app].
  destruct b as [|c b]; [reflexivity|].
  destruct (decide (c = "/"%char)) as [-> | Hc]; [destruct (Hb b eq_refl)|].
  destruct c as [[] [] [] [] [] [] [] []]; try reflexivity. destruct Hc. reflexivity.
Qed.

Lemma join2_dotdot (base : string) : exists y, join2 base ".." = y +:+ "..".
Proof.
  unfold join2. cbn [String.rev].
  destruct (String.rev base) as [|c r].
  - exists "". reflexivity.
  - destruct (decide (c = "/"%char)) as [-> | Hc].
    + exists base. reflexivity.
    + exists (base +:+ "/"). rewrite append_assoc.
      destruct c as [[] [] [] [] [] [] [] []]; try reflexivity. destruct Hc. reflexivity.
Qed.

(** The two directories are one prefix followed by [/images] and by
    [/gs-images]. *)
Lemma directories_shape (env : Env) :
  exists x, IMAGES_DIR env = x +:+ "/images" /\ GSIMAGES_DIR env = x +:+ "/gs-images".
Proof.
  destruct (join2_dotdot (base_dir env)) as (y & Hy).
  exists (y +:+ ".."). unfold IMAGES_DIR, GSIMAGES_DIR, join. cbn [foldl].
  rewrite Hy, !join2_after_dotdot by (intros r; discriminate). auto.
Qed.

Lemma pretty_N_go_no_dot (x : N) :
  forall s, mem "." (pretty_N_go x s) = mem "." s.
Proof.
  induction (N.lt_wf_0 x) as [x _ IH]; intros s.
  destruct (decide (x = 0)%N) as [-> | Hx]; [now rewrite pretty_N_go_0|].
  rewrite pretty_N_go_step by lia.
  rewrite IH by (apply N.div_lt; lia).
  cbn [mem]. rewrite decide_False; [reflexivity|].
  unfold pretty_N_char. repeat case_match; discriminate.
Qed.

Lemma str_nat_no_dot (n : nat) : mem "." (str_nat n) = false.
Proof.
  unfold str_nat, pretty, pretty_nat, pretty, pretty_N.
  destruct (decide (N.of_nat n = 0%N)); [reflexivity|]. apply pretty_N_go_no_dot.
Qed.

Lemma drop_get (p : string) :
  forall k a, String.get k p = Some a -> drop k p = String a (drop (S k) p).
Proof.
  induction p as [|x p IH]; intros k a; [discriminate|].
  destruct k as [|k]; cbn.
  - intros [= ->]. now destruct p.
  - intros H. rewrite (IH k a H). reflexivity.
Qed.

(** An inferred extension is empty or starts with a dot. *)
Lemma splitext_ext_shape (p : string) :
  (splitext p).2 = "" \/ exists r, (splitext p).2 = String "." r.
Proof.
  unfold splitext.
  destruct (rfind "." p >? rfind "/" p) eqn:Hgt; [|now left].
  destruct (splitext_scan _ _ _); [|now left]. right. cbn [snd].
  apply Z.gtb_lt in Hgt. unfold rfind in *.
  destruct (rfind_go_range "/" p 0 (-1)) as [[_ Hs] | [_ Hs]];
    destruct (rfind_go_range "." p 0 (-1)) as [[_ Hd] | [Hm Hd]]; try lia.
  - pose proof (rfind_go_get "." p 0 (-1) Hm) as Hget. rewrite Z.sub_0_r in Hget.
    eexists. apply drop_get. exact Hget.
  - pose proof (rfind_go_get "." p 0 (-1) Hm) as Hget. rewrite Z.sub_0_r in Hget.
    eexists. apply drop_get. exact Hget.
Qed.

Lemma name_split (d1 : string) :
  forall d2 e1 e2,
    mem "." d1 = false -> mem "." d2 = false ->
    (e1 = "" \/ exists r, e1 = String "." r) ->
    (e2 = "" \/ exists r, e2 = String "." r) ->
    d1 +:+ e1 = d2 +:+ e2 -> d1 = d2.
Proof.
  induction d1 as [|a d1 IH]; intros d2 e1 e2 H1 H2 He1 He2 Heq.
  - destruct d2 as [|b d2]; [reflexivity|]. exfalso.
    change ("" +:+ e1) with e1 in Heq.
    change (String b d2 +:+ e2) with (String b (d2 +:+ e2)) in Heq.
    cbn in H2. destruct (decide (b = "."%char)) as [-> | Hb]; [discriminate|].
    destruct He1 as [-> | (r & ->)]; [discriminate|]. now injection Heq as <- _.
  - destruct d2 as [|b d2].
    + exfalso.
      change ("" +:+ e2) with e2 in Heq.
      change (String a d1 +:+ e1) with (String a (d1 +:+ e1)) in Heq.
      cbn in H1. destruct (decide (a = "."%char)) as [-> | Ha]; [discriminate|].
      destruct He2 as [-> | (r & ->)]; [discriminate|]. now injection Heq as -> _.
    + change (String a d1 +:+ e1) with (String a (d1 +:+ e1)) in Heq.
      change (String b d2 +:+ e2) with (String b (d2 +:+ e2)) in Heq.
      injection Heq as -> Heq. f_equal.
      cbn in H1, H2. destruct (decide (b = "."%char)); [discriminate|].
      exact (IH d2 e1 e2 H1 H2 He1 He2 Heq).
Qed.

Lemma numbered_name_inj (dir : string) (i j : nat) (u v : string) :
  dir +:+ os_sep +:+ str_nat (i + 1) +:+ (splitext u).2 =
  dir +:+ os_sep +:+ str_nat (j + 1) +:+ (splitext v).2 ->
  i = j.
Proof.
  intros Heq. apply (inj (String.app dir)) in Heq. apply (inj (String.app os_sep)) in Heq.
  apply name_split in Heq; auto using str_nat_no_dot, splitext_ext_shape.
  unfold str_nat in Heq. apply (inj pretty) in Heq. lia.
Qed.

End NameFacts.

Lemma file_names_shape_distinct (env : Env) (i j : nat) (u v : string) :
  (i <> j -> imagefile env i u <> imagefile env j v) /\
  (i <> j -> grayfile env i u <> grayfile env j v) /\
  imagefile env i u <> grayfile env j v.
Proof.
  split; [|split].
  - intros Hij Heq. apply Hij. exact (numbered_name_inj _ _ _ _ _ Heq).
  - intros Hij Heq. apply Hij. exact (numbered_name_inj _ _ _ _ _ Heq).
  - unfold imagefile, grayfile.
    destruct (directories_shape env) as (x & -> & ->).
    rewrite !append_assoc. intros Heq. apply (inj (String.app x)) in Heq.
    discriminate Heq.
Qed.

(** X12. File names do not collide: the raw files of two different
    indices have different names whatever the URLs, so have the
    grayscale files, and no raw file has the name of a grayscale file;
    so the two downloads of a URL that was listed twice go to two
    files. *)
Theorem file_names_distinct (env : Env) (i j : nat) (u v : string) :
  (i <> j -> imagefile env i u <> imagefile env j v) /\
  (i <> j -> grayfile env i u <> grayfile env j v) /\
  imagefile env i u <> grayfile env j v.
Proof.
  split; [|split].
  - intros Hij Heq. apply Hij. exact (numbered_name_inj _ _ _ _ _ Heq).
  - intros Hij Heq. apply Hij. exact (numbered_name_inj _ _ _ _ _ Heq).
  - unfold imagefile, grayfile.
    destruct (directories_shape env) as (x & -> & ->).
    rewrite !append_assoc. intros Heq. apply (inj (String.app x)) in Heq.
    discriminate Heq.
Qed.

Lemma file_names_distinct_witness :
  imagefile Samples.env_dup 0 Samples.dup_url <> imagefile Samples.env_dup 1 Samples.dup_url /\
  grayfile Samples.env_dup 0 Samples.dup_url <> grayfile Samples.env_dup 1 Samples.dup_url.
Proof.
  pose proof (file_names_distinct Samples.env_dup 0 1 Samples.dup_url Samples.dup_url)
    as (Hraw & Hgray & _).
  split; [apply Hraw | apply Hgray]; lia.
Defined.

Lemma writes_app (a b : list Event) : writes (a ++ b) = writes a ++ writes b.
Proof. apply omap_app. Qed.

Lemma replay_app (a b : list (string * bytes)) (m : gmap string bytes) :
  replay (a ++ b) m = replay b (replay a m).
Proof. apply foldl_app. Qed.

Lemma replay_other (ws : list (string * bytes)) :
  forall (m : gmap string bytes) p, p ∉ ws.*1 -> replay ws m !! p = m !! p.
Proof.
  induction ws as [|[q c] ws IH]; intros m p Hp; [reflexivity|].
  change (replay ((q, c) :: ws) m) with (replay ws (<[q:=c]> m)).
  change (((q, c) :: ws).*1) with (q :: ws.*1) in Hp.
  apply not_elem_of_cons in Hp as [Hne Hp].
  rewrite IH by exact Hp. now apply lookup_insert_ne.
Qed.

Lemma replay_written (ws : list (string * bytes)) :
  forall (m : gmap string bytes) p b,
    NoDup ws.*1 -> (p, b) ∈ ws -> replay ws m !! p = Some b.
Proof.
  induction ws as [|[q c] ws IH]; intros m p b Hnd Hin; [inversion Hin|].
  change (replay ((q, c) :: ws) m) with (replay ws (<[q:=c]> m)).
  change (((q, c) :: ws).*1) with (q :: ws.*1) in Hnd.
  apply NoDup_cons in Hnd as [Hq Hnd].
  apply elem_of_cons in Hin as [[= -> ->] | Hin].
  - rewrite replay_other by exact Hq. apply lookup_insert_eq.
  - now apply IH.
Qed.

(** One turn of the loop, by its file writes. *)
Lemma turn_files (env : Env) (i : nat) (url : string) (w : World) r w' :
  (download_image env url (imagefile env i url) ≫= fun _ =>
   to_grayscale env (imagefile env i url) (grayfile env i url)) w = (r, w') ->
  exists block,
    trace w' = trace w ++ block /\
    files (fs w') = replay (writes block) (files (fs w)) /\
    (writes block).*1 `prefix_of` [imagefile env i url; grayfile env i url].
Proof.
  rewrite bind_run, download_image_run.
  destruct (requests_get env (trace w) (download_request url)) as [resp|e|e].
  - destruct (status_code resp =? 200).
    + rewrite to_grayscale_run. cbn [fs files trace].
      destruct (_ ≫= imdecode env) as [image|].
      * destruct (imencode env _ _) as [data|]; intros [= <- <-]; cbn [trace];
          rewrite <- app_assoc; eexists; (split; [reflexivity|]); cbn.
        -- split; [reflexivity|]. reflexivity.
        -- split; [reflexivity|]. now exists [grayfile env i url].
      * intros [= <- <-]. cbn [trace emit]. rewrite <- app_assoc. eexists.
        split; [reflexivity|]. cbn. split; [reflexivity|].
        now exists [grayfile env i url].
    + intros [= <- <-]. eexists. split; [reflexivity|]. cbn.
      split; [reflexivity | apply prefix_nil].
  - intros [= <- <-]. eexists. split; [reflexivity|]. cbn.
    split; [reflexivity | apply prefix_nil].
  - intros [= <- <-]. eexists. split; [reflexivity|]. cbn.
    split; [reflexivity | apply prefix_nil].
Qed.

(** The loop of the driver, by its file writes: the files at the end
    are the files at the start with the logged writes replayed; every
    write goes to a name of one of the indices; and no name is written
    twice when no index occurs twice. *)
Lemma main_loop_files (env : Env) (image_urls : list string) (indices : list nat) :
  forall (w : World) r w',
    main_loop env image_urls indices w = (r, w') ->
    exists new,
      trace w' = trace w ++ new /\
      files (fs w') = replay (writes new) (files (fs w)) /\
      Forall (written_name env image_urls indices) (writes new).*1 /\
      (NoDup indices -> NoDup (writes new).*1).
Proof.
  induction indices as [|i indices IH]; intros w r w'.
  - cbn. intros [= <- <-]. exists []. rewrite app_nil_r. cbn.
    repeat split; auto. constructor.
  - cbn [main_loop]. rewrite bind_run.
    destruct (image_urls !! i) as [url|] eqn:Hi.
    2:{ intros [= <- <-]. exists []. rewrite app_nil_r. cbn.
        repeat split; auto. constructor. }
    rewrite mret_run.
    assert (Hassoc : forall w0,
      (download_image env url (imagefile env i url) ≫= fun _ =>
       to_grayscale env (imagefile env i url) (grayfile env i url) ≫= fun _ =>
       main_loop env image_urls indices) w0 =
      ((download_image env url (imagefile env i url) ≫= fun _ =>
        to_grayscale env (imagefile env i url) (grayfile env i url)) ≫= fun _ =>
       main_loop env image_urls indices) w0).
    { intros w0. rewrite !bind_run.
      destruct (download_image env url (imagefile env i url) w0) as [[[]| | |] w1];
        reflexivity. }
    rewrite Hassoc, bind_run.
    destruct ((download_image env url (imagefile env i url) ≫= _) w) as [r1 w1] eqn:Hturn.
    destruct (turn_files env i url w r1 w1 Hturn) as (block & Htr & Hfiles & Hpaths).
    assert (Hblock : Forall (written_name env image_urls (i :: indices)) (writes block).*1).
    { apply Forall_forall. intros p Hp.
      assert (Hp' : p ∈ [imagefile env i url; grayfile env i url]).
      { destruct Hpaths as [k ->]. apply elem_of_app. now left. }
      exists i, url. split; [left|]. split; [exact Hi|].
      apply elem_of_cons in Hp' as [-> | Hp']; [now left|].
      apply list_elem_of_singleton in Hp' as ->. now right. }
    assert (Hnd : NoDup (writes block).*1).
    { destruct Hpaths as [k Hk].
      assert (Hboth : NoDup [imagefile env i url; grayfile env i url]).
      { apply NoDup_cons. split; [|apply NoDup_singleton].
        intros Hin. apply list_elem_of_singleton in Hin.
        exact (proj2 (proj2 (file_names_shape_distinct env i i url url)) Hin). }
      rewrite Hk in Hboth. apply NoDup_app in Hboth. tauto. }
    assert (Hstop : exists new,
              trace w1 = trace w ++ new /\
              files (fs w1) = replay (writes new) (files (fs w)) /\
              Forall (written_name env image_urls (i :: indices)) (writes new).*1 /\
              (NoDup (i :: indices) -> NoDup (writes new).*1)).
    { exists block. auto. }
    destruct r1 as [[]|c|e|]; try (intros [= <- <-]; exact Hstop).
    intros Hrest. destruct (IH _ _ _ Hrest) as (new & Htr' & Hfiles' & Hnames & Hnd').
    exists (block ++ new).
    split; [rewrite Htr', Htr, app_assoc; reflexivity|].
    split; [rewrite writes_app, replay_app, <- Hfiles; exact Hfiles'|].
    rewrite writes_app, fmap_app. split.
    + apply Forall_app. split; [exact Hblock|].
      eapply Forall_impl; [exact Hnames|].
      intros p (j & u & Hj & Hu & Hp). exists j, u. split; [now right | auto].
    + intros Hni. apply NoDup_cons in Hni as [Hi' Hni].
      apply NoDup_app. split; [exact Hnd|]. split; [|now apply Hnd'].
      intros p Hp Hp'.
      rewrite Forall_forall in Hblock, Hnames.
      assert (Hpi : p = imagefile env i url \/ p = grayfile env i url).
      { destruct Hpaths as [k Hk].
        assert (Hin : p ∈ [imagefile env i url; grayfile env i url])
          by (rewrite Hk; apply elem_of_app; now left).
        apply elem_of_cons in Hin as [-> | Hin]; [now left|].
        apply list_elem_of_singleton in Hin as ->. now right. }
      destruct (Hnames p Hp') as (j & u & Hj & _ & Hpj).
      assert (Hij : i <> j) by (intros ->; contradiction).
      destruct (file_names_shape_distinct env i j url u) as (Hraw & Hgray & Hcross).
      destruct (file_names_shape_distinct env j i u url) as (_ & _ & Hcross').
      destruct Hpi as [-> | ->], Hpj as [Heq | Heq].
      * exact (Hraw Hij Heq).
      * exact (Hcross Heq).
      * exact (Hcross' (eq_sym Heq)).
      * exact (Hgray Hij Heq).
Qed.

Lemma acquisition_no_writes (t : list Event) :
  Forall acquisition_event t -> writes t = [].
Proof.
  induction 1 as [|e t He _ IH]; [reflexivity|].
  destruct He as [prompt o | e [url o | line]]; cbn; exact IH.
Qed.

(** X13. The files after a run, however it ends, are the files before
    it with the run's writes on top, and the run writes no name twice:
    every file it wrote holds at the end the bytes written to it (no
    download is overwritten by a later download or by a conversion),
    every name it did not write holds what it held before, and every
    name it wrote is the raw or the grayscale name of an index. *)
Theorem run_files_are_its_writes (env : Env) (fuel : nat) (argv : list string)
    (w w' : World) (res : Result unit) :
  main env fuel argv w = (res, w') ->
  exists new,
    trace w' = trace w ++ new /\
    NoDup (writes new).*1 /\
    (forall p b, (p, b) ∈ writes new -> files (fs w') !! p = Some b) /\
    (forall p, p ∉ (writes new).*1 -> files (fs w') !! p = files (fs w) !! p) /\
    (forall p, p ∈ (writes new).*1 ->
       exists i url, p = imagefile env i url \/ p = grayfile env i url).
Proof.
  assert (Hnone : forall w0 : World, exists new,
            trace w0 = trace w0 ++ new /\
            NoDup (writes new).*1 /\
            (forall p b, (p, b) ∈ writes new -> files (fs w0) !! p = Some b) /\
            (forall p, p ∉ (writes new).*1 -> files (fs w0) !! p = files (fs w0) !! p) /\
            (forall p, p ∈ (writes new).*1 ->
               exists i url, p = imagefile env i url \/ p = grayfile env i url)).
  { intros w0. exists []. rewrite app_nil_r. cbn.
    split; [reflexivity|]. split; [constructor|].
    split; [intros p b Hin; inversion Hin|]. split; [reflexivity|].
    intros p Hin. inversion Hin. }
  unfold main. rewrite bind_run.
  destruct (argv !! 1%nat) as [arg|]; [|intros [= <- <-]; apply Hnone].
  rewrite mret_run, bind_run.
  destruct (PyStr.int arg) as [numimages|]; [|intros [= <- <-]; apply Hnone].
  rewrite mret_run, bind_run.
  destruct (generate_image_urls env fuel numimages w) as [r0 w0] eqn:Hgen.
  destruct (generate_image_urls_spec _ _ _ _ _ _ Hgen) as (new0 & Htr0 & Hfs0 & Hacq & _).
  pose proof (acquisition_no_writes new0 Hacq) as Hw0.
  assert (Hquiet : exists new,
            trace w0 = trace w ++ new /\
            NoDup (writes new).*1 /\
            (forall p b, (p, b) ∈ writes new -> files (fs w0) !! p = Some b) /\
            (forall p, p ∉ (writes new).*1 -> files (fs w0) !! p = files (fs w) !! p) /\
            (forall p, p ∈ (writes new).*1 ->
               exists i url, p = imagefile env i url \/ p = grayfile env i url)).
  { exists new0. rewrite Hw0, Hfs0. cbn.
    split; [exact Htr0|]. split; [constructor|].
    split; [intros p b Hin; inversion Hin|]. split; [reflexivity|].
    intros p Hin. inversion Hin. }
  destruct r0 as [image_urls| | |]; try (intros [= <- <-]; exact Hquiet).
  intros Hloop.
  destruct (main_loop_files _ _ _ _ _ _ Hloop) as (new1 & Htr1 & Hfiles & Hnames & Hnd).
  specialize (Hnd (NoDup_seq 0 (length image_urls))).
  exists (new0 ++ new1). rewrite writes_app, Hw0. cbn [app].
  split; [rewrite Htr1, Htr0, app_assoc; reflexivity|].
  split; [exact Hnd|]. rewrite Hfiles, Hfs0.
  split; [intros p b Hin; now apply replay_written|].
  split; [intros p Hp; now apply replay_other|].
  intros p Hp. rewrite Forall_forall in Hnames.
  destruct (Hnames p Hp) as (i & url & _ & _ & Hname). eauto.
Qed.

Lemma run_files_are_its_writes_witness :
  exists new,
    trace (main Samples.env_dup 1 ["imageprocessing.py"; "2"] MoreSamples.w_files).2 =
      trace MoreSamples.w_files ++ new /\
    NoDup (writes new).*1 /\
    (forall p b, (p, b) ∈ writes new ->
       files (fs (main Samples.env_dup 1 ["imageprocessing.py"; "2"]
                    MoreSamples.w_files).2) !! p = Some b) /\
    (forall p, p ∉ (writes new).*1 ->
       files (fs (main Samples.env_dup 1 ["imageprocessing.py"; "2"]
                    MoreSamples.w_files).2) !! p = files (fs MoreSamples.w_files) !! p) /\
    (forall p, p ∈ (writes new).*1 ->
       exists i url,
         p = imagefile Samples.env_dup i url \/ p = grayfile Samples.env_dup i url).
Proof.
  apply (run_files_are_its_writes Samples.env_dup 1 ["imageprocessing.py"; "2"]
           MoreSamples.w_files _
           (main Samples.env_dup 1 ["imageprocessing.py"; "2"] MoreSamples.w_files).1).
  destruct (main Samples.env_dup 1 ["imageprocessing.py"; "2"] MoreSamples.w_files).
  reflexivity.
Defined.

(** A turn that returns has downloaded its image. *)
Lemma turn_returns (env : Env) (i : nat) (url : string) (w w' : World) :
  (download_image env url (imagefile env i url) ≫= fun _ =>
   to_grayscale env (imagefile env i url) (grayfile env i url)) w = (Ret tt, w') ->
  exists block,
    trace w' = trace w ++ block /\
    raw_written block = [imagefile env i url] /\
    (gray_written block = [grayfile env i url] \/
     gray_written block = [] /\
     last block = Some (EvPrint ("Error: could not read " +:+ imagefile env i url))).
Proof.
  rewrite bind_run, download_image_run.
  destruct (requests_get env (trace w) (download_request url)) as [resp|e|e];
    try discriminate.
  destruct (status_code resp =? 200); [|discriminate].
  rewrite to_grayscale_run. cbn [fs files trace].
  destruct (_ ≫= imdecode env) as [image|].
  - destruct (imencode env _ _) as [data|]; [|discriminate].
    intros [= <-]. cbn [trace]. rewrite <- app_assoc. eexists.
    split; [reflexivity|]. cbn. auto.
  - intros [= <-]. cbn [trace emit]. rewrite <- app_assoc. eexists.
    split; [reflexivity|]. cbn. auto.
Qed.

Lemma main_loop_returns (env : Env) (image_urls : list string) (n : nat) :
  forall (k : nat) (w w' : World),
    main_loop env image_urls (seq k n) w = (Ret tt, w') ->
    exists new,
      trace w' = trace w ++ new /\
      (k + n <= length image_urls \/ n = 0)%nat /\
      raw_written new =
        imap (fun j url => imagefile env (k + j) url) (take n (drop k image_urls)) /\
      gray_written new `sublist_of`
        imap (fun j url => grayfile env (k + j) url) (take n (drop k image_urls)).
Proof.
  induction n as [|n IH]; intros k w w'.
  - cbn. intros [= <-]. exists []. rewrite app_nil_r. cbn. auto.
  - cbn [seq main_loop]. rewrite bind_run.
    destruct (image_urls !! k) as [url|] eqn:Hk; [|discriminate].
    rewrite mret_run.
    assert (Hassoc : forall w0,
      (download_image env url (imagefile env k url) ≫= fun _ =>
       to_grayscale env (imagefile env k url) (grayfile env k url) ≫= fun _ =>
       main_loop env image_urls (seq (S k) n)) w0 =
      ((download_image env url (imagefile env k url) ≫= fun _ =>
        to_grayscale env (imagefile env k url) (grayfile env k url)) ≫= fun _ =>
       main_loop env image_urls (seq (S k) n)) w0).
    { intros w0. rewrite !bind_run.
      destruct (download_image env url (imagefile env k url) w0) as [[[]| | |] w1];
        reflexivity. }
    rewrite Hassoc, bind_run.
    destruct ((download_image env url (imagefile env k url) ≫= _) w) as [r1 w1] eqn:Hturn.
    destruct r1 as [[]| | |]; try discriminate.
    destruct (turn_returns env k url w w1 Hturn) as (block & Htr & Hraw & Hgray).
    intros Hrest. destruct (IH _ _ _ Hrest) as (new & Htr' & Hlen & Hraw' & Hgray').
    exists (block ++ new).
    split; [rewrite Htr', Htr, app_assoc; reflexivity|].
    pose proof (lookup_lt_Some _ _ _ Hk) as Hlt.
    split.
    { left. destruct Hlen as [Hlen | ->]; lia. }
    rewrite (drop_S _ _ _ Hk). cbn [take imap].
    rewrite raw_written_app, gray_written_app, Hraw, Hraw'.
    rewrite Nat.add_0_r.
    assert (Hext : forall f : nat -> nat -> string -> string,
              (forall j u, f (S k) j u = f k (S j) u) ->
              imap (f (S k)) (take n (drop (S k) image_urls)) =
              imap (f k ∘ S) (take n (drop (S k) image_urls))).
    { intros f Hf. apply imap_ext. intros j u _. apply Hf. }
    split.
    + cbn [app]. f_equal.
      apply (Hext (fun k j url => imagefile env (k + j) url)).
      intros j u. f_equal. lia.
    + rewrite <- (Hext (fun k j url => grayfile env (k + j) url))
        by (intros j u; f_equal; lia).
      destruct Hgray as [-> | [-> _]]; cbn [app].
      * now apply sublist_skip.
      * now apply sublist_cons.
Qed.

(** X14. A run that ends normally has downloaded every acquired URL:
    the raw files it wrote are, in order, those of indices 1, 2, ... of
    the acquired list, one for each of its [max numimages 0] URLs; the
    grayscale files it wrote are a subsequence of the grayscale names
    of the same list (the images that did not decode are left out). *)
Theorem normal_run_downloads_all (env : Env) (fuel : nat) (prog arg : string)
    (numimages : Z) (w w' : World) :
  PyStr.int arg = Some numimages ->
  main env fuel [prog; arg] w = (Ret tt, w') ->
  exists (image_urls : list string) (new0 new : list Event),
    generate_image_urls env fuel numimages w =
      (Ret image_urls, {| trace := trace w ++ new0; fs := fs w |}) /\
    Z.of_nat (length image_urls) = Z.max numimages 0 /\
    trace w' = trace w ++ new0 ++ new /\
    raw_written new = imap (imagefile env) image_urls /\
    gray_written new `sublist_of` imap (grayfile env) image_urls.
Proof.
  intros Harg. unfold main. cbn [lookup list_lookup].
  rewrite bind_run, mret_run, Harg, bind_run, mret_run, bind_run.
  destruct (generate_image_urls env fuel numimages w) as [r0 w0] eqn:Hgen.
  destruct (generate_image_urls_spec _ _ _ _ _ _ Hgen) as (new0 & Htr0 & Hfs0 & _ & Hlen).
  destruct r0 as [image_urls| | |]; try discriminate.
  intros Hloop.
  destruct (main_loop_returns _ _ _ _ _ _ Hloop) as (new & Htr & _ & Hraw & Hgray).
  rewrite drop_0, firstn_all in Hraw, Hgray.
  exists image_urls, new0, new.
  split; [destruct w0 as [t0 f0]; cbn in *; now subst|].
  split; [now apply Hlen|].
  split; [rewrite Htr, Htr0, app_assoc; reflexivity|].
  split; [exact Hraw | exact Hgray].
Qed.

Lemma normal_run_downloads_all_witness :
  exists (image_urls : list string) (new0 new : list Event),
    generate_image_urls Samples.env_corrupt 1 2 Samples.w0 =
      (Ret image_urls, {| trace := trace Samples.w0 ++ new0; fs := fs Samples.w0 |}) /\
    Z.of_nat (length image_urls) = Z.max 2 0 /\
    trace (main Samples.env_corrupt 1 ["imageprocessing.py"; "2"] Samples.w0).2 =
      trace Samples.w0 ++ new0 ++ new /\
    raw_written new = imap (imagefile Samples.env_corrupt) image_urls /\
    gray_written new `sublist_of` imap (grayfile Samples.env_corrupt) image_urls.
Proof.
  apply (normal_run_downloads_all Samples.env_corrupt 1 "imageprocessing.py" "2" 2
           Samples.w0).
  - reflexivity.
  - vm_compute. reflexivity.
Defined.

(** ** The top-level script *)

(** X15. The top-level script, whatever its arguments and however it
    ends, downloads at most one image and converts at most that one: the
    only raw file it can write is [../images/1] followed by the inferred
    extension of a URL, the only grayscale file [../gs-images/1]
    followed by the same, and there is no grayscale file without the raw
    one. *)
Theorem toplevel_one_image (env : Env) (fuel : nat) (argv : list string)
    (w w' : World) (res : Result unit) :
  Toplevel.main env fuel argv w = (res, w') ->
  exists new,
    trace w' = trace w ++ new /\
    (raw_written new = [] /\ gray_written new = [] \/
     exists url,
       raw_written new = ["../images/1" +:+ (PyStr.splitext url).2] /\
       (gray_written new = [] \/
        gray_written new = ["../gs-images/1" +:+ (PyStr.splitext url).2])).
Proof.
  unfold Toplevel.main. rewrite bind_run.
  destruct (generate_image_urls env fuel 1 w) as [r0 w0] eqn:Hgen.
  destruct (generate_image_urls_spec _ _ _ _ _ _ Hgen) as (new0 & Htr0 & _ & Hacq & Hlen).
  destruct (acquisition_writes_nothing new0 Hacq) as [Hg0 Hr0].
  destruct r0 as [image_urls| | |];
    try (intros [= <- <-]; exists new0; split; [exact Htr0 | left; auto]).
  specialize (Hlen image_urls eq_refl).
  destruct image_urls as [|url [|url' rest]]; cbn in Hlen; try lia.
  cbn [length seq Toplevel.main_loop lookup list_lookup].
  rewrite bind_run, mret_run, bind_run, download_image_run.
  assert (Hname : Toplevel.imagefile 0 url = "../images/1" +:+ (PyStr.splitext url).2)
    by reflexivity.
  assert (Hgname : Toplevel.grayfile 0 url = "../gs-images/1" +:+ (PyStr.splitext url).2)
    by reflexivity.
  destruct (requests_get env (trace w0) (download_request url)) as [resp|e|e].
  - destruct (status_code resp =? 200).
    + rewrite bind_run, to_grayscale_run. cbn [fs files trace].
      destruct (_ ≫= imdecode env) as [image|].
      * destruct (imencode env _ _) as [data|]; intros [= <- <-]; cbn [trace];
          rewrite Htr0, <- !app_assoc; eexists; (split; [reflexivity|]);
          rewrite raw_written_app, gray_written_app, Hg0, Hr0; cbn;
          right; exists url; rewrite <- Hname, <- Hgname; auto.
      * intros [= <- <-]. cbn [trace emit]. rewrite Htr0, <- !app_assoc. eexists.
        split; [reflexivity|].
        rewrite raw_written_app, gray_written_app, Hg0, Hr0. cbn.
        right. exists url. rewrite <- Hname. auto.
    + intros [= <- <-]. cbn [trace]. rewrite Htr0, <- app_assoc. eexists.
      split; [reflexivity|].
      rewrite raw_written_app, gray_written_app, Hg0, Hr0. cbn. left. auto.
  - intros [= <- <-]. cbn [trace emit]. rewrite Htr0, <- app_assoc. eexists.
    split; [reflexivity|].
    rewrite raw_written_app, gray_written_app, Hg0, Hr0. cbn. left. auto.
  - intros [= <- <-]. cbn [trace emit]. rewrite Htr0, <- app_assoc. eexists.
    split; [reflexivity|].
    rewrite raw_written_app, gray_written_app, Hg0, Hr0. cbn. left. auto.
Qed.

Lemma toplevel_one_image_witness :
  exists new,
    trace (Toplevel.main Samples.env_ok 1 ["imageprocessing.py"; "7"] Samples.w0).2 =
      trace Samples.w0 ++ new /\
    (raw_written new = [] /\ gray_written new = [] \/
     exists url,
       raw_written new = ["../images/1" +:+ (PyStr.splitext url).2] /\
       (gray_written new = [] \/
        gray_written new = ["../gs-images/1" +:+ (PyStr.splitext url).2])).
Proof.
  apply (toplevel_one_image Samples.env_ok 1 ["imageprocessing.py"; "7"] Samples.w0 _
           (Toplevel.main Samples.env_ok 1 ["imageprocessing.py"; "7"] Samples.w0).1).
  destruct (Toplevel.main Samples.env_ok 1 ["imageprocessing.py"; "7"] Samples.w0).
  reflexivity.
Defined.

(** ** What the acquisition prints *)

Lemma check_failure_line_mono (a new b : list Event) (line : string) :
  check_failure_line new line -> check_failure_line (a ++ new ++ b) line.
Proof.
  intros (url & e & Hline & Hin). exists url, e. split; [exact Hline|].
  destruct Hin as [Hin | Hin]; [left | right];
    apply elem_of_app; right; apply elem_of_app; now left.
Qed.

Lemma for_urls_prints (env : Env) (numimages : Z) (urls : list string) :
  forall (image_urls l : list string) (w w' : World) new,
    for_urls env numimages urls image_urls w = (Ret l, w') ->
    trace w' = trace w ++ new ->
    forall line, EvPrint line ∈ new -> check_failure_line new line.
Proof.
  induction urls as [|url urls IH]; intros image_urls l w w' new.
  - cbn. intros [= <- <-] Hnew line Hin.
    rewrite <- (app_nil_r (trace w)) in Hnew at 1. apply app_inv_head in Hnew. subst new.
    inversion Hin.
  - cbn [for_urls]. rewrite bind_run, is_accessible_run.
    set (u := PyStr.strip url).
    assert (Hstep : forall b w1 new1,
              trace w1 = trace w ++ new1 ->
              (forall line, EvPrint line ∈ new1 -> check_failure_line new1 line) ->
              (if Z.of_nat (length (if b : bool then image_urls ++ [u] else image_urls))
                    =? numimages
               then mret (if b then image_urls ++ [u] else image_urls)
               else for_urls env numimages urls
                      (if b then image_urls ++ [u] else image_urls)) w1 = (Ret l, w') ->
              trace w' = trace w ++ new ->
              forall line, EvPrint line ∈ new -> check_failure_line new line).
    { intros b w1 new1 Htr1 Hhere Hrun Hnew line Hin.
      destruct (Z.of_nat (length (if b then image_urls ++ [u] else image_urls)) =? numimages).
      - injection Hrun as <- <-. rewrite Htr1 in Hnew. apply app_inv_head in Hnew.
        subst new. auto.
      - destruct (for_urls_spec env numimages urls
                    (if b then image_urls ++ [u] else image_urls) w1)
          as (l' & w'' & new2 & Hrun' & Htr2 & _).
        rewrite Hrun in Hrun'. injection Hrun' as <- <-.
        rewrite Htr2, Htr1, <- app_assoc in Hnew. apply app_inv_head in Hnew. subst new.
        apply elem_of_app in Hin as [Hin | Hin].
        + apply (check_failure_line_mono [] new1 new2). auto.
        + rewrite <- (app_nil_r new2).
          apply (check_failure_line_mono new1 new2 []).
          exact (IH _ _ _ _ new2 Hrun Htr2 line Hin). }
    destruct (requests_get env (trace w) (check_request u)) as [r|e|e]; intros Hrun Hnew.
    + eapply (Hstep (status_code r =? 200)); [| |exact Hrun|exact Hnew]; [reflexivity|].
      intros line Hin. apply list_elem_of_singleton in Hin. discriminate.
    + eapply (Hstep false); [| |exact Hrun|exact Hnew].
      * cbn. rewrite <- app_assoc. reflexivity.
      * intros line Hin. cbn in Hin.
        apply elem_of_cons in Hin as [Hin | Hin]; [discriminate|].
        apply list_elem_of_singleton in Hin. injection Hin as ->.
        exists u, e. split; [reflexivity|]. left. left.
    + eapply (Hstep false); [| |exact Hrun|exact Hnew].
      * cbn. rewrite <- app_assoc. reflexivity.
      * intros line Hin. cbn in Hin.
        apply elem_of_cons in Hin as [Hin | Hin]; [discriminate|].
        apply list_elem_of_singleton in Hin. injection Hin as ->.
        exists u, e. split; [reflexivity|]. right. left.
Qed.

Lemma acquires_prints (env : Env) (numimages : Z) (image_urls : list string)
    (w : World) r (w' : World) :
  acquires env numimages image_urls w r w' ->
  forall new, trace w' = trace w ++ new ->
    forall line, EvPrint line ∈ new -> check_failure_line new line.
Proof.
  induction 1 as [acc w Hfull | acc w Hlt | acc w e Hlt Herr
                 | acc w t1 w1 e Hlt Ho1 Hw1 Herr
                 | acc w t1 w1 text w2 l1 w3 r w' Hlt Ho1 Hw1 Ho2 Hw2 Hfor Hacq IH];
    intros new Hnew line Hin.
  - rewrite <- (app_nil_r (trace w)) in Hnew at 1. apply app_inv_head in Hnew.
    subst new. inversion Hin.
  - rewrite <- (app_nil_r (trace w)) in Hnew at 1. apply app_inv_head in Hnew.
    subst new. inversion Hin.
  - cbn in Hnew. apply app_inv_head in Hnew. subst new.
    apply list_elem_of_singleton in Hin. discriminate.
  - subst w1. cbn in Hnew. rewrite <- app_assoc in Hnew. apply app_inv_head in Hnew.
    subst new. cbn in Hin.
    apply elem_of_cons in Hin as [Hin | Hin]; [discriminate|].
    apply list_elem_of_singleton in Hin. discriminate.
  - destruct (round_trace _ _ _ _ _ _ _ _ _ _ _ _ _ Hw1 Hw2 Hfor Hacq Hnew)
      as (new3 & new' & -> & Htr3 & Hnew' & _).
    cbn in Hin.
    apply elem_of_cons in Hin as [Hin | Hin]; [discriminate|].
    apply elem_of_cons in Hin as [Hin | Hin]; [discriminate|].
    apply elem_of_app in Hin as [Hin | Hin].
    + apply (check_failure_line_mono [_; _] new3 new').
      exact (for_urls_prints _ _ _ _ _ _ _ _ Hfor Htr3 line Hin).
    + rewrite <- (app_nil_r new'), app_assoc.
      apply (check_failure_line_mono ([_; _] ++ new3) new' []).
      exact (IH new' Hnew' line Hin).
Qed.

(** X16. Every line [generate_image_urls] prints is explained by an
    exception: it is the message of a reachability check whose GET
    raised, naming the URL and the error, or it is the final
    ["Error: ..."] line before exit code 1.  A candidate whose GET is
    answered, with whatever status, is taken or dropped without a
    message. *)
Theorem acquisition_prints_only_errors (env : Env) (fuel : nat) (numimages : Z)
    (w w' : World) (r : Result (list string)) (new : list Event) :
  generate_image_urls env fuel numimages w = (r, w') ->
  trace w' = trace w ++ new ->
  forall line, EvPrint line ∈ new ->
    check_failure_line new line \/
    (r = Exit 1 /\ last new = Some (EvPrint line) /\
     exists m, line = "Error: " +:+ m).
Proof.
  rewrite generate_image_urls_run.
  destruct (while_urls env fuel numimages [] w) as [r0 w0] eqn:Hw.
  pose proof (while_urls_acquires _ _ _ _ _ _ _ Hw) as Hacq.
  destruct (acquires_extends _ _ _ _ _ _ Hacq) as (new0 & Hnew0).
  pose proof (acquires_prints _ _ _ _ _ _ Hacq new0 Hnew0) as Hprints.
  assert (Hsame : (r0, w0) = (r, w') -> trace w' = trace w ++ new ->
            forall line, EvPrint line ∈ new ->
              check_failure_line new line \/
              (r = Exit 1 /\ last new = Some (EvPrint line) /\
               exists m, line = "Error: " +:+ m)).
  { intros [= <- <-] Hnew line Hin. rewrite Hnew0 in Hnew. apply app_inv_head in Hnew.
    subst new. left. auto. }
  destruct r0 as [l|c|e|]; try exact Hsame.
  destruct e; try exact Hsame.
  intros [= <- <-] Hnew line Hin. cbn in Hnew. rewrite Hnew0, <- app_assoc in Hnew.
  apply app_inv_head in Hnew. subst new.
  apply elem_of_app in Hin as [Hin | Hin].
  - left. rewrite <- (app_nil_l (new0 ++ _)).
    apply (check_failure_line_mono [] new0 _). auto.
  - apply list_elem_of_singleton in Hin. injection Hin as ->. right.
    split; [reflexivity|]. split; [apply last_snoc | eauto].
Qed.

Lemma acquisition_prints_only_errors_witness :
  check_failure_line
    (trace (generate_image_urls Samples.env_unreachable 1 1 Samples.w0).2)
    "Error accessing https://img.example.org/cat.png: connection refused" \/
  ((generate_image_urls Samples.env_unreachable 1 1 Samples.w0).1 = Exit 1 /\
   last (trace (generate_image_urls Samples.env_unreachable 1 1 Samples.w0).2) =
     Some (EvPrint "Error accessing https://img.example.org/cat.png: connection refused") /\
   exists m,
     "Error accessing https://img.example.org/cat.png: connection refused" =
       "Error: " +:+ m).
Proof.
  apply (acquisition_prints_only_errors Samples.env_unreachable 1 1 Samples.w0
           (generate_image_urls Samples.env_unreachable 1 1 Samples.w0).2
           (generate_image_urls Samples.env_unreachable 1 1 Samples.w0).1
           (trace (generate_image_urls Samples.env_unreachable 1 1 Samples.w0).2)).
  - destruct (generate_image_urls Samples.env_unreachable 1 1 Samples.w0). reflexivity.
  - reflexivity.
  - vm_compute. right. right. right. left.
Defined.

(** ** Directories *)

Section DirFacts.

Import PyStr.

Lemma length_append (a b : string) :
  String.length (a +:+ b) = (String.length a + String.length b)%nat.
Proof.
  induction a as [|x a IH]; [reflexivity|].
  change (String x a +:+ b) with (String x (a +:+ b)). cbn. now rewrite IH.
Qed.

Lemma append_nil_r (s : string) : s +:+ "" = s.
Proof.
  induction s as [|a s IH]; [reflexivity|].
  change (String a s +:+ "") with (String a (s +:+ "")). now rewrite IH.
Qed.

Lemma rev_app_rev_app (a : string) :
  forall b c, String.rev_app (String.rev_app a b) c = String.rev_app b (a +:+ c).
Proof.
  induction a as [|x a IH]; intros b c; [reflexivity|].
  cbn [String.rev_app]. rewrite IH. reflexivity.
Qed.

Lemma rev_involutive (s : string) : String.rev (String.rev s) = s.
Proof. unfold String.rev. rewrite rev_app_rev_app. cbn. apply append_nil_r. Qed.

Lemma has_other_append (c : ascii) (a b : string) :
  has_other c (a +:+ b) = has_other c a || has_other c b.
Proof.
  induction a as [|x a IH]; [reflexivity|].
  change (String x a +:+ b) with (String x (a +:+ b)). cbn.
  destruct (decide (x = c)); [exact IH | reflexivity].
Qed.

Lemma has_other_rev_app (c : ascii) (s : string) :
  forall acc, has_other c (String.rev_app s acc) = has_other c s || has_other c acc.
Proof.
  induction s as [|x s IH]; intros acc; [reflexivity|].
  cbn. rewrite IH. cbn. destruct (decide (x = c)); [reflexivity | apply orb_true_r].
Qed.

Lemma pretty_N_go_mem_other (c : ascii) (x : N) :
  (forall d, pretty_N_char d <> c) ->
  forall s, mem c (pretty_N_go x s) = mem c s.
Proof.
  intros Hc. induction (N.lt_wf_0 x) as [x _ IH]; intros s.
  destruct (decide (x = 0)%N) as [-> | Hx]; [now rewrite pretty_N_go_0|].
  rewrite pretty_N_go_step by lia.
  rewrite IH by (apply N.div_lt; lia).
  cbn [mem]. now rewrite decide_False.
Qed.

Lemma str_nat_no_sep (n : nat) : mem "/" (str_nat n) = false.
Proof.
  unfold str_nat, pretty, pretty_nat, pretty, pretty_N.
  destruct (decide (N.of_nat n = 0%N)); [reflexivity|].
  apply pretty_N_go_mem_other.
  intros d. unfold pretty_N_char. repeat case_match; discriminate.
Qed.

Lemma rfind_go_ge (c : ascii) (s : string) :
  forall i found j,
    String.get j s = Some c -> i + Z.of_nat j <= rfind_go c s i found.
Proof.
  induction s as [|a s IH]; intros i found j; [discriminate|].
  destruct j as [|j]; cbn [String.get rfind_go].
  - intros [= ->]. rewrite decide_True by reflexivity.
    destruct (rfind_go_range c s (i + 1) i) as [[_ ->] | [_ H]]; lia.
  - intros H. specialize (IH (i + 1) (if decide (a = c) then i else found) j H). lia.
Qed.

Lemma mem_drop_inv (c : ascii) (p : string) :
  forall k, mem c (drop k p) = true ->
    exists j, (k <= j)%nat /\ String.get j p = Some c.
Proof.
  induction p as [|a p IH]; intros k.
  - destruct k; discriminate.
  - destruct k as [|k].
    + cbn [drop mem]. destruct (decide (a = c)) as [-> | Hne].
      * intros _. exists 0%nat. split; [lia | reflexivity].
      * intros H. destruct (IH 0%nat) as (j & _ & Hj); [now destruct p|].
        exists (S j). split; [lia | exact Hj].
    + cbn [drop]. intros H. destruct (IH k H) as (j & Hkj & Hj).
      exists (S j). split; [lia | exact Hj].
Qed.

(** An inferred extension holds no slash. *)
Lemma splitext_ext_no_sep (p : string) : mem "/" (splitext p).2 = false.
Proof.
  unfold splitext.
  destruct (rfind "." p >? rfind "/" p) eqn:Hgt; [|reflexivity].
  destruct (splitext_scan _ _ _); [|reflexivity]. cbn [snd].
  apply Z.gtb_lt in Hgt.
  destruct (mem "/" (drop (Z.to_nat (rfind "." p)) p)) eqn:Hm; [|reflexivity].
  exfalso. destruct (mem_drop_inv _ _ _ Hm) as (j & Hj & Hget).
  pose proof (rfind_go_ge "/" p 0 (-1) j Hget) as Hge. fold (rfind "/" p) in Hge.
  assert (-1 <= rfind "/" p).
  { unfold rfind. destruct (rfind_go_range "/" p 0 (-1)) as [[_ ->] | [_ H]]; lia. }
  lia.
Qed.

(** The parent directory of a file named directly under a directory
    whose own name does not end in a slash. *)
Lemma dirname_child (dir name : string) (c : ascii) (r : string) :
  String.rev dir = String c r -> c <> "/"%char ->
  mem "/" name = false ->
  dirname (dir +:+ os_sep +:+ name) = dir.
Proof.
  intros Hrev Hc Hname. unfold dirname, os_sep.
  assert (Hfind : rfind "/" (dir +:+ "/" +:+ name) = Z.of_nat (String.length dir)).
  { unfold rfind. rewrite rfind_go_append.
    change ("/" +:+ name) with (String "/" name). cbn [rfind_go].
    rewrite decide_True by reflexivity. rewrite rfind_go_absent by exact Hname. lia. }
  rewrite Hfind.
  replace (Z.to_nat (Z.of_nat (String.length dir) + 1))
    with (String.length (dir +:+ "/")) by (rewrite length_append; cbn; lia).
  rewrite <- append_assoc, take_append.
  assert (Hother : has_other "/" (dir +:+ "/") = true).
  { rewrite has_other_append.
    assert (Hd : has_other "/" dir = true).
    { rewrite <- (rev_involutive dir), Hrev. unfold String.rev.
      rewrite has_other_rev_app. cbn. now rewrite decide_False. }
    now rewrite Hd. }
  rewrite Hother. unfold rstrip_sep.
  unfold String.rev at 2. rewrite rev_app_append. cbn [String.rev_app].
  fold (String.rev dir). rewrite Hrev.
  assert (Hgo : forall s,
            (fix go (r0 : string) : string :=
               match r0 with
               | String "/" r' => go r'
               | _ => r0
               end) (String c s) = String c s).
  { intros s. destruct c as [[] [] [] [] [] [] [] []]; try reflexivity.
    destruct Hc. reflexivity. }
  cbn [String.rev_app]. rewrite Hgo. rewrite <- Hrev. apply rev_involutive.
Qed.

Lemma imagefile_dirname (env : Env) (i : nat) (url : string) :
  dirname (imagefile env i url) = IMAGES_DIR env.
Proof.
  unfold imagefile. destruct (directories_shape env) as (x & Hx & _).
  apply (dirname_child _ _ "s" (String.rev_app "/image" (String.rev x))).
  - rewrite Hx. unfold String.rev. rewrite rev_app_append. reflexivity.
  - discriminate.
  - rewrite mem_append, str_nat_no_sep, splitext_ext_no_sep. reflexivity.
Qed.

Lemma grayfile_dirname (env : Env) (i : nat) (url : string) :
  dirname (grayfile env i url) = GSIMAGES_DIR env.
Proof.
  unfold grayfile. destruct (directories_shape env) as (x & _ & Hx).
  apply (dirname_child _ _ "s" (String.rev_app "/gs-image" (String.rev x))).
  - rewrite Hx. unfold String.rev. rewrite rev_app_append. reflexivity.
  - discriminate.
  - rewrite mem_append, str_nat_no_sep, splitext_ext_no_sep. reflexivity.
Qed.

End DirFacts.

Local Set Warnings "-clear-no-such-hyp".

Lemma main_loop_directories (env : Env) (image_urls : list string) (indices : list nat) :
  forall (w : World) r w',
    main_loop env image_urls indices w = (r, w') ->
    dirs (fs w) ⊆ dirs (fs w') /\
    dirs (fs w') ⊆ dirs (fs w) ∪ {[ IMAGES_DIR env; GSIMAGES_DIR env ]} /\
    exists new,
      trace w' = trace w ++ new /\
      forall d, EvMakedirs d ∈ new -> d = IMAGES_DIR env \/ d = GSIMAGES_DIR env.
Proof.
  induction indices as [|i indices IH]; intros w r w'.
  - cbn. intros [= <- <-]. split; [set_solver|]. split; [set_solver|].
    exists []. rewrite app_nil_r. split; [reflexivity|]. intros d Hd. inversion Hd.
  - cbn [main_loop]. rewrite bind_run.
    destruct (image_urls !! i) as [url|] eqn:Hi.
    2:{ intros [= <- <-]. split; [set_solver|]. split; [set_solver|].
        exists []. rewrite app_nil_r. split; [reflexivity|]. intros d Hd. inversion Hd. }
    rewrite mret_run, bind_run, download_image_run, imagefile_dirname.
    destruct (requests_get env (trace w) (download_request url)) as [resp|e|e].
    2,3: intros [= <- <-]; (split; [set_solver|]); (split; [set_solver|]);
         eexists; (split; [reflexivity|]); intros d Hd;
         apply list_elem_of_singleton in Hd; discriminate.
    destruct (status_code resp =? 200).
    2:{ intros [= <- <-]. split; [set_solver|]. split; [set_solver|].
        eexists. split; [reflexivity|]. intros d Hd.
        apply elem_of_cons in Hd as [Hd | Hd]; [discriminate|].
        apply list_elem_of_singleton in Hd. discriminate. }
    rewrite bind_run, to_grayscale_run, grayfile_dirname. cbn [fs files dirs trace].
    destruct (_ ≫= imdecode env) as [image|].
    + destruct (imencode env _ _) as [data|].
      * intros Hrest. destruct (IH _ _ _ Hrest) as (Hsub & Hsup & new & Htr & Hmk).
        cbn [fs dirs trace] in *.
        split; [set_solver|]. split; [set_solver|].
        eexists. split; [rewrite Htr, <- !app_assoc; reflexivity|].
        intros d Hd. cbn in Hd.
        repeat (apply elem_of_cons in Hd as [Hd | Hd];
                [first [discriminate | injection Hd as ->; auto]|]).
        auto.
      * intros [= <- <-]. cbn [fs dirs trace].
        split; [set_solver|]. split; [set_solver|].
        eexists. split; [rewrite <- !app_assoc; reflexivity|].
        intros d Hd. cbn in Hd.
        repeat (apply elem_of_cons in Hd as [Hd | Hd];
                [first [discriminate | injection Hd as ->; auto]|]).
        inversion Hd.
    + intros Hrest. destruct (IH _ _ _ Hrest) as (Hsub & Hsup & new & Htr & Hmk).
      cbn [fs dirs trace emit] in *.
      split; [set_solver|]. split; [set_solver|].
      eexists. split; [rewrite Htr, <- !app_assoc; reflexivity|].
      intros d Hd. cbn in Hd.
      repeat (apply elem_of_cons in Hd as [Hd | Hd];
              [first [discriminate | injection Hd as ->; auto]|]).
      auto.
Qed.

(** X17. Whatever the URLs (a query with slashes included), every raw
    file is named directly under [IMAGES_DIR] and every grayscale file
    directly under [GSIMAGES_DIR]; so a run, however it ends, creates no
    directory but these two, and removes none. *)
Theorem run_directories (env : Env) (fuel : nat) (argv : list string)
    (w w' : World) (res : Result unit) :
  main env fuel argv w = (res, w') ->
  (forall i url,
      PyStr.dirname (imagefile env i url) = IMAGES_DIR env /\
      PyStr.dirname (grayfile env i url) = GSIMAGES_DIR env) /\
  dirs (fs w) ⊆ dirs (fs w') /\
  dirs (fs w') ⊆ dirs (fs w) ∪ {[ IMAGES_DIR env; GSIMAGES_DIR env ]}.
Proof.
  intros Hrun. split; [intros i url; split;
                       [apply imagefile_dirname | apply grayfile_dirname]|].
  revert Hrun. unfold main. rewrite bind_run.
  destruct (argv !! 1%nat) as [arg|]; [|intros [= <- <-]; set_solver].
  rewrite mret_run, bind_run.
  destruct (PyStr.int arg) as [numimages|]; [|intros [= <- <-]; set_solver].
  rewrite mret_run, bind_run.
  destruct (generate_image_urls env fuel numimages w) as [r0 w0] eqn:Hgen.
  destruct (generate_image_urls_spec _ _ _ _ _ _ Hgen) as (new0 & _ & Hfs0 & _ & _).
  destruct r0 as [image_urls| | |]; try (intros [= <- <-]; rewrite Hfs0; set_solver).
  intros Hloop.
  destruct (main_loop_directories _ _ _ _ _ _ Hloop) as (Hsub & Hsup & _).
  rewrite Hfs0 in Hsub, Hsup. auto.
Qed.

Lemma run_directories_witness :
  (forall i url,
      PyStr.dirname (imagefile Samples.env_ok i url) = IMAGES_DIR Samples.env_ok /\
      PyStr.dirname (grayfile Samples.env_ok i url) = GSIMAGES_DIR Samples.env_ok) /\
  dirs (fs MoreSamples.w_files) ⊆
    dirs (fs (main Samples.env_ok 1 ["imageprocessing.py"; "2"] MoreSamples.w_files).2) /\
  dirs (fs (main Samples.env_ok 1 ["imageprocessing.py"; "2"] MoreSamples.w_files).2) ⊆
    dirs (fs MoreSamples.w_files) ∪ {[ IMAGES_DIR Samples.env_ok; GSIMAGES_DIR Samples.env_ok ]}.
Proof.
  apply (run_directories Samples.env_ok 1 ["imageprocessing.py"; "2"] MoreSamples.w_files
           _ (main Samples.env_ok 1 ["imageprocessing.py"; "2"] MoreSamples.w_files).1).
  destruct (main Samples.env_ok 1 ["imageprocessing.py"; "2"] MoreSamples.w_files).
  reflexivity.
Defined.

(** ** A turn of the loop, end to end *)

(** X18. In a turn whose download is answered 200, the conversion reads
    the bytes just downloaded, whatever file of that name was there
    before: if they do not decode, the turn prints the read error and
    the loop goes on; if they decode and encode, the loop goes on with
    the raw file holding the response body and the grayscale file
    holding the encoding of the converted image. *)
Theorem turn_converts_the_download (env : Env) (image_urls : list string)
    (i : nat) (indices : list nat) (url : string) (w : World) (resp : Response) :
  image_urls !! i = Some url ->
  requests_get env (trace w) (download_request url) = HttpResponse resp ->
  status_code resp = 200 ->
  exists w1,
    download_image env url (imagefile env i url) w = (Ret tt, w1) /\
    (imdecode env (content resp) = None ->
     main_loop env image_urls (i :: indices) w =
       main_loop env image_urls indices
         (emit (EvPrint ("Error: could not read " +:+ imagefile env i url)) w1)) /\
    (forall image data,
        imdecode env (content resp) = Some image ->
        imencode env (grayfile env i url) (cvtColor_BGR2GRAY env image) = Some data ->
        exists w2,
          main_loop env image_urls (i :: indices) w =
            main_loop env image_urls indices w2 /\
          files (fs w2) !! imagefile env i url = Some (content resp) /\
          files (fs w2) !! grayfile env i url = Some data /\
          forall p, p <> imagefile env i url -> p <> grayfile env i url ->
            files (fs w2) !! p = files (fs w) !! p).
Proof.
  intros Hi Hget Hcode.
  assert (Hdl : download_image env url (imagefile env i url) w =
            (Ret tt,
             {| trace := trace w ++ [EvGet (download_request url) (HttpResponse resp);
                                     EvMakedirs (PyStr.dirname (imagefile env i url));
                                     EvWrite (imagefile env i url) (content resp)];
                fs := {| files := <[imagefile env i url := content resp]> (files (fs w));
                         dirs := {[ PyStr.dirname (imagefile env i url) ]} ∪ dirs (fs w) |} |})).
  { rewrite download_image_run, Hget. apply Z.eqb_eq in Hcode. now rewrite Hcode. }
  eexists. split; [exact Hdl|]. split.
  - intros Hdec. cbn [main_loop].
    rewrite Hi, bind_run, mret_run, bind_run, Hdl, bind_run, to_grayscale_run.
    cbn [fs files]. rewrite lookup_insert_eq. cbn [mbind option_bind]. rewrite Hdec.
    reflexivity.
  - intros image data Hdec Henc. cbn [main_loop].
    rewrite Hi, bind_run, mret_run, bind_run, Hdl, bind_run, to_grayscale_run.
    cbn [fs files]. rewrite lookup_insert_eq. cbn [mbind option_bind]. rewrite Hdec, Henc.
    eexists. split; [reflexivity|]. cbn [fs files].
    pose proof (proj2 (proj2 (file_names_shape_distinct env i i url url))) as Hne.
    split; [rewrite lookup_insert_ne by congruence; apply lookup_insert_eq|].
    split; [apply lookup_insert_eq|].
    intros p Hp Hp'. rewrite !lookup_insert_ne by congruence. reflexivity.
Qed.

Lemma turn_converts_the_download_witness :
  exists w1,
    download_image Samples.env_ok Samples.dup_url (imagefile Samples.env_ok 0 Samples.dup_url)
      MoreSamples.w_files = (Ret tt, w1) /\
    (imdecode Samples.env_ok [Byte.x89; Byte.x50] = None ->
     main_loop Samples.env_ok [Samples.dup_url] [0%nat] MoreSamples.w_files =
       main_loop Samples.env_ok [Samples.dup_url] []
         (emit (EvPrint ("Error: could not read " +:+
                         imagefile Samples.env_ok 0 Samples.dup_url)) w1)) /\
    (forall image data,
        imdecode Samples.env_ok [Byte.x89; Byte.x50] = Some image ->
        imencode Samples.env_ok (grayfile Samples.env_ok 0 Samples.dup_url)
          (cvtColor_BGR2GRAY Samples.env_ok image) = Some data ->
        exists w2,
          main_loop Samples.env_ok [Samples.dup_url] [0%nat] MoreSamples.w_files =
            main_loop Samples.env_ok [Samples.dup_url] [] w2 /\
          files (fs w2) !! imagefile Samples.env_ok 0 Samples.dup_url =
            Some [Byte.x89; Byte.x50] /\
          files (fs w2) !! grayfile Samples.env_ok 0 Samples.dup_url = Some data /\
          forall p, p <> imagefile Samples.env_ok 0 Samples.dup_url ->
            p <> grayfile Samples.env_ok 0 Samples.dup_url ->
            files (fs w2) !! p = files (fs MoreSamples.w_files) !! p).
Proof.
  apply (turn_converts_the_download Samples.env_ok [Samples.dup_url] 0 []
           Samples.dup_url MoreSamples.w_files
           {| status_code := 200; content := [Byte.x89; Byte.x50] |});
    reflexivity.
Defined.
